(** * calibre.db.cli.cmd_fts_index: the [fts_index] command

    A shallow embedding of [src/calibre/db/cli/cmd_fts_index.py]: the
    memoized progress tracker, the [implementation] dispatcher that runs
    next to the database, the completion waiter with its listener and
    queue, and the command line front end [main].

    Python objects that the module only uses (the database handle, the
    [IndexingProgress] class, the job context) are kept behind explicit
    interfaces.  Effects are threaded through a [World] by a small
    state-and-exception monad; every database call, tracker operation and
    line of output is also appended to a trace, so that the order of
    effects can be stated. *)

From Stdlib Require Import ZArith String Ascii List Bool Lia.
From stdpp Require Import base option list gmap strings pretty.

Local Open Scope Z_scope.
Local Open Scope string_scope.

(** ** Python values, exceptions and outcomes *)

(** The values that travel in item tuples: a book id and format names. *)
Inductive pyval :=
| PInt (n : Z)
| PStr (s : string).

(** A Python tuple of such values, e.g. [(12, 'EPUB', 'PDF')]. *)
Definition tuple : Type := list pyval.

(** The exception classes the module raises or lets through.  The first
    six derive from [Exception]; [KeyboardInterrupt] and [SystemExit]
    derive from [BaseException] only. *)
Inductive exc_class :=
| Exception
| AttributeError
| TypeError
| ValueError
| NotImplementedError
| EOFError
| KeyboardInterrupt
| SystemExit.

(** [isinstance(e, Exception)], decided by the class: what the clause
    [except Exception as e] tests. *)
Definition isinstance_Exception (c : exc_class) : bool :=
  match c with
  | KeyboardInterrupt | SystemExit => false
  | _ => true
  end.

(** A raised object: its class, its single argument if any, and whether
    [getattr(e, 'suppress_traceback', False)] is true. *)
Record exn := mk_exn {
  exn_class : exc_class;
  exn_arg : option pyval;
  suppress_traceback : bool
}.

Definition str_of_pyval (v : pyval) : string :=
  match v with
  | PInt n => pretty n
  | PStr s => s
  end.

(** [str(e)] for an exception built from at most one argument. *)
Definition str_exn (e : exn) : string :=
  match exn_arg e with
  | None => EmptyString
  | Some v => str_of_pyval v
  end.

(** [SystemExit(code)]. *)
Definition system_exit (code : pyval) : exn := mk_exn SystemExit (Some code) false.

(** The process exit status, on POSIX, of an interpreter that ends with
    an uncaught [SystemExit]: 0 for no argument; for an integer that
    fits a C [long] its low eight bits, and 255 for one that does not;
    1 for any other object, which is printed on stderr. *)
Definition exit_status (e : exn) : Z :=
  match exn_arg e with
  | None => 0
  | Some (PInt n) =>
      if ((- 2 ^ 63 <=? n) && (n <? 2 ^ 63))%Z then n mod 256 else 255
  | Some (PStr _) => 1
  end.

(** How a call ends: it returns, it raises, or it never returns (a wait
    that is never satisfied). *)
Inductive outcome (A : Type) :=
| Ret (a : A)
| Raise (e : exn)
| Diverge.
Arguments Ret {A} a.
Arguments Raise {A} e.
Arguments Diverge {A}.

(** ** The progress state *)

(** Modelled from the spec: the class [IndexingProgress] of
    [calibre.db.utils], which is not under [src/].  Section 3 of the spec
    gives it the remaining and total counts and a record of rate samples;
    a fresh or reset state is the unset sentinel [(-1, -1)] with no
    samples; [update] overwrites both counts and appends a sample.  Time
    stamps are not modelled: a sample is the remaining count alone, and
    the bound on the number of samples, which the spec leaves open, is not
    imposed. *)
Record IndexingProgress := mk_ip {
  ip_left : Z;
  ip_total : Z;
  rate_samples : list Z
}.

Definition IndexingProgress_init : IndexingProgress := mk_ip (-1) (-1) [].

Definition ip_update (left total : Z) (ip : IndexingProgress) : IndexingProgress :=
  mk_ip left total (rate_samples ip ++ [left]).

Definition ip_reset (ip : IndexingProgress) : IndexingProgress := IndexingProgress_init.

(** Modelled from the spec: the derived attribute [time_left].  Its
    formula is left open by the spec, so the estimate is carried
    symbolically, as the state it was read from. *)
Inductive estimate :=
| time_left_of (ip : IndexingProgress).

(** The object [indexing_progress()] builds: an [IndexingProgress] with a
    [Lock] attached.  [tr_id] and [tr_lock] are the identities of the two
    objects. *)
Record tracker := mk_tracker {
  tr_id : nat;
  tr_lock : nat;
  tr_state : IndexingProgress
}.

(** ** The database boundary *)

(** The closure [listen] that [local_wait_for_completion] hands to
    [db.add_listener]. *)
Inductive callback :=
| CbListen.

Global Instance callback_eq_dec : EqDecision callback.
Proof. solve_decision. Defined.

(** Modelled from the spec: the database handle (the [Cache] API object of
    [calibre.db.cache], not under [src/]) with the methods of section 6.
    Queries are functions of the database state, commands are state
    transformers; [registered] lists the callbacks the handle will call.
    The two laws say that [add_listener] registers its argument and that
    changing the indexing speed leaves the registrations alone. *)
Class DbApi (DB : Type) := {
  is_fts_enabled : DB → bool;
  enable_fts : bool → DB → DB;
  fts_indexing_progress : DB → Z * Z;
  reindex_fts : DB → DB;
  reindex_fts_book : tuple → DB → DB;
  add_listener : callback → DB → DB;
  set_fts_speed : bool → DB → DB;
  registered : DB → list callback;
  registered_add_listener : ∀ cb db, cb ∈ registered (add_listener cb db);
  registered_set_fts_speed : ∀ slow db, registered (set_fts_speed slow db) = registered db
}.

(** The database calls, as they appear in the trace. *)
Inductive db_call :=
| c_is_fts_enabled
| c_enable_fts (enabled : bool)
| c_fts_indexing_progress
| c_reindex_fts
| c_reindex_fts_book (item : tuple)
| c_add_listener (cb : callback)
| c_set_fts_speed (slow : bool).

(** ** Events, output and the trace *)

(** What the database's dispatcher passes to a listener: the event type
    with its data.  Only [indexing_progress_changed] is named by the
    module; its data is the pair [(left, total)]. *)
Inductive event :=
| IndexingProgressChanged (library_id : string) (left total : Z)
| OtherEvent (library_id : string) (kind : nat).

(** An argument of [str.format]. *)
Inductive fmt_arg :=
| FInt (n : Z)
| FStr (s : string)
| FTimeLeft (e : estimate).

(** What is written to the terminal.  [str.format] is not interpreted: a
    formatted line keeps its template and arguments. *)
Inductive output :=
| OutHelp
| OutLine (s : string)
| OutFormat (prefix template : string) (args : list fmt_arg) (end_ : string)
| OutPrompt (s : string).

Inductive effect :=
| EConstruct (r lk : nat)
| EAcquire (lk : nat)
| ERelease (lk : nat)
| EUpdate (r : nat) (left total : Z)
| EReset (r : nat)
| ETimeLeft (r : nat)
| EDb (c : db_call)
| EOut (o : output).

(** One line read by [input()]: text, Ctrl-C, or end of input. *)
Inductive input_result :=
| InputLine (s : string)
| InputInterrupt.

(** What can happen while the waiter runs: the dispatcher thread delivers
    an event to the registered listeners, the waiting thread takes its
    next step, or the user interrupts the waiting thread.  A call of the
    listener is one act: its two statements touch the tracker, under its
    lock, and the queue, which is safe for concurrent use. *)
Inductive act :=
| Deliver (e : event)
| WaiterStep
| Interrupt.

(** ** Python string operations used by the module (ASCII) *)

(** Text is modelled as a string of characters below 128, standing for
    the Python [str] with the same code points.  On such text the
    definitions below are the builtins of CPython 3.11; what [int] and
    [str.upper] do with other characters (digits and white space of
    other scripts, case mappings) is outside the model, and the theorems
    about [to_spec] take [isascii] as a hypothesis. *)

Definition ascii_in (lo hi c : ascii) : bool :=
  (nat_of_ascii lo <=? nat_of_ascii c)%nat && (nat_of_ascii c <=? nat_of_ascii hi)%nat.

(** [s.isascii()]. *)
Fixpoint isascii (s : string) : bool :=
  match s with
  | EmptyString => true
  | String c s' => (nat_of_ascii c <? 128)%nat && isascii s'
  end.

(** Whether a character occurs in a string. *)
Fixpoint occurs (c : ascii) (s : string) : bool :=
  match s with
  | EmptyString => false
  | String a s' => Ascii.eqb a c || occurs c s'
  end.

(** [c.upper()] on an ASCII character. *)
Definition upper_ascii (c : ascii) : ascii :=
  if ascii_in "a" "z" c then ascii_of_nat (nat_of_ascii c - 32) else c.

(** [s.upper()]. *)
Fixpoint upper (s : string) : string :=
  match s with
  | EmptyString => EmptyString
  | String c s' => String (upper_ascii c) (upper s')
  end.

(** [s.split(sep)] for a one character separator: never empty. *)
Fixpoint split (sep : ascii) (s : string) : list string :=
  match s with
  | EmptyString => [EmptyString]
  | String c s' =>
      if Ascii.eqb c sep then EmptyString :: split sep s'
      else match split sep s' with
           | h :: t => String c h :: t
           | [] => [String c EmptyString]
           end
  end.

(** [s.split(sep, 1)]: cut at the first separator only. *)
Fixpoint split1 (sep : ascii) (s : string) : list string :=
  match s with
  | EmptyString => [EmptyString]
  | String c s' =>
      if Ascii.eqb c sep then [EmptyString; s']
      else match split1 sep s' with
           | h :: t => String c h :: t
           | [] => [String c EmptyString]
           end
  end.

(** [sep.join(parts)]. *)
Fixpoint join (sep : string) (parts : list string) : string :=
  match parts with
  | [] => EmptyString
  | [p] => p
  | p :: rest => p +:+ sep +:+ join sep rest
  end.

(** [s.lstrip(c)] and [s.rstrip(c)] for a single character. *)
Fixpoint lstrip (c : ascii) (s : string) : string :=
  match s with
  | EmptyString => EmptyString
  | String a s' => if Ascii.eqb a c then lstrip c s' else s
  end.

Fixpoint rstrip (c : ascii) (s : string) : string :=
  match s with
  | EmptyString => EmptyString
  | String a s' =>
      match rstrip c s' with
      | EmptyString => if Ascii.eqb a c then EmptyString else String a EmptyString
      | r => String a r
      end
  end.

(** [s.strip(c)]. *)
Definition strip (c : ascii) (s : string) : string := rstrip c (lstrip c s).

(** *** [int(s)] in base ten *)

(** The white space [int] skips around an ASCII literal: tab, line feed,
    vertical tab, form feed, carriage return and the space. *)
Definition is_space (c : ascii) : bool :=
  ascii_in "009" "013" c || Ascii.eqb c " ".

Definition is_digit (c : ascii) : bool := ascii_in "0" "9" c.

Definition digit_value (c : ascii) : Z := Z.of_nat (nat_of_ascii c) - 48.

Fixpoint skip_spaces (s : string) : string :=
  match s with
  | EmptyString => EmptyString
  | String c s' => if is_space c then skip_spaces s' else s
  end.

(** The run of digits and underscores at the head of [s]: its value, the
    number of its digits and the text after it.  [prev] tells that the
    last character was an underscore; an underscore may only stand
    between two digits, so a doubled or a final one gives [None]. *)
Fixpoint scan_digits (prev : bool) (acc : Z) (digits : nat) (s : string)
  : option (Z * nat * string) :=
  match s with
  | EmptyString => if prev then None else Some (acc, digits, EmptyString)
  | String c s' =>
      if is_digit c then scan_digits false (10 * acc + digit_value c) (S digits) s'
      else if Ascii.eqb c "_" then
        if prev then None else scan_digits true acc digits s'
      else if prev then None else Some (acc, digits, s)
  end.

(** [sys.get_int_max_str_digits()], at the default of the interpreter. *)
Definition int_max_str_digits : nat := 4300.

Inductive int_result :=
| IntValue (n : Z)
| IntInvalid
| IntTooLong (digits : nat).

(** The literal after its sign: a run of digits that does not start
    with an underscore, then white space only.  The limit on the number
    of digits is checked at the end of the run, before what follows the
    run is looked at. *)
Definition int_unsigned (neg : bool) (s : string) : int_result :=
  match scan_digits true 0 0 s with
  | None => IntInvalid
  | Some (acc, digits, rest) =>
      if (int_max_str_digits <? digits)%nat then IntTooLong digits
      else match skip_spaces rest with
           | EmptyString => IntValue (if neg then - acc else acc)
           | String _ _ => IntInvalid
           end
  end.

(** The parser behind [int(s)]: white space, an optional sign, the
    digits. *)
Definition int_literal (s : string) : int_result :=
  match skip_spaces s with
  | EmptyString => IntInvalid
  | String c s' =>
      if Ascii.eqb c "+" then int_unsigned false s'
      else if Ascii.eqb c "-" then int_unsigned true s'
      else int_unsigned false (String c s')
  end.

(** [int(s)]: [None] stands for [ValueError]. *)
Definition py_int (s : string) : option Z :=
  match int_literal s with
  | IntValue n => Some n
  | _ => None
  end.

(** *** [repr(s)] and the message of [int]'s [ValueError] *)

Definition backslash : ascii := "092".

Definition hex_digit (n : nat) : ascii :=
  default "0"%char (String.get n "0123456789abcdef").

(** One character of [repr(s)] between the quotes [quote]. *)
Definition repr_char (quote c : ascii) : string :=
  if Ascii.eqb c quote || Ascii.eqb c backslash then String backslash (String c EmptyString)
  else if Ascii.eqb c "009" then String backslash "t"
  else if Ascii.eqb c "010" then String backslash "n"
  else if Ascii.eqb c "013" then String backslash "r"
  else if (nat_of_ascii c <? 32)%nat || Ascii.eqb c "127" then
    String backslash
      (String "x" (String (hex_digit (nat_of_ascii c / 16))
                          (String (hex_digit (nat_of_ascii c mod 16)) EmptyString)))
  else String c EmptyString.

Fixpoint repr_chars (quote : ascii) (s : string) : string :=
  match s with
  | EmptyString => EmptyString
  | String c s' => repr_char quote c +:+ repr_chars quote s'
  end.

(** [repr(s)]: between double quotes when [s] holds single quotes only,
    between single quotes otherwise. *)
Definition repr (s : string) : string :=
  let quote := if occurs "'" s && negb (occurs "034" s) then "034"%char else "'"%char in
  String quote (repr_chars quote s +:+ String quote EmptyString).

(** [str(e)] of the [ValueError] that [int(s)] raises.  The text is
    shown as the first 200 characters of its [repr]. *)
Definition int_message (s : string) : string :=
  match int_literal s with
  | IntTooLong digits =>
      "Exceeds the limit (" +:+ pretty int_max_str_digits
        +:+ " digits) for integer string conversion: value has " +:+ pretty digits
        +:+ " digits; use sys.set_int_max_str_digits() to increase the limit"
  | _ => "invalid literal for int() with base 10: " +:+ substring 0 200 (repr s)
  end.

Definition int_error (s : string) : exn :=
  mk_exn ValueError (Some (PStr (int_message s))) false.

(** ** The world and the effect monad *)

Section Command.

Context {DB : Type} `{!DbApi DB}.

(** [_], the translation function calibre installs as a builtin. *)
Variable gettext : string → string.

(** Everything the module can read or change: the database behind the
    handle, the [lru_cache] slot of [indexing_progress] with the object it
    holds, the number of objects constructed so far (the next identity),
    the trace of effects, the lines waiting on standard input, whether
    [sys.excepthook] has been replaced by the silent one, and what the
    other threads and the user will do during a wait. *)
Record World := mk_world {
  w_db : DB;
  w_cache : option tracker;
  w_objects : nat;
  w_trace : list effect;
  w_stdin : list input_result;
  w_excepthook_silenced : bool;
  w_sched : list act
}.

Definition with_db (f : DB → DB) (w : World) : World :=
  mk_world (f (w_db w)) (w_cache w) (w_objects w) (w_trace w)
           (w_stdin w) (w_excepthook_silenced w) (w_sched w).

Definition with_cache (c : option tracker) (w : World) : World :=
  mk_world (w_db w) c (w_objects w) (w_trace w)
           (w_stdin w) (w_excepthook_silenced w) (w_sched w).

Definition with_objects (n : nat) (w : World) : World :=
  mk_world (w_db w) (w_cache w) n (w_trace w)
           (w_stdin w) (w_excepthook_silenced w) (w_sched w).

Definition emit (es : list effect) (w : World) : World :=
  mk_world (w_db w) (w_cache w) (w_objects w) (w_trace w ++ es)
           (w_stdin w) (w_excepthook_silenced w) (w_sched w).

Definition with_stdin (l : list input_result) (w : World) : World :=
  mk_world (w_db w) (w_cache w) (w_objects w) (w_trace w)
           l (w_excepthook_silenced w) (w_sched w).

Definition silence_excepthook (w : World) : World :=
  mk_world (w_db w) (w_cache w) (w_objects w) (w_trace w)
           (w_stdin w) true (w_sched w).

Definition with_sched (l : list act) (w : World) : World :=
  mk_world (w_db w) (w_cache w) (w_objects w) (w_trace w)
           (w_stdin w) (w_excepthook_silenced w) l.

(** A computation: from a world to an outcome and the world it leaves. *)
Definition M (A : Type) : Type := World → outcome A * World.

#[local] Instance M_ret : MRet M := λ A a w, (Ret a, w).

#[local] Instance M_bind : MBind M := λ A B f m w,
  match m w with
  | (Ret a, w') => f a w'
  | (Raise e, w') => (Raise e, w')
  | (Diverge, w') => (Diverge, w')
  end.

Definition raise {A : Type} (e : exn) : M A := λ w, (Raise e, w).

Definition log (e : effect) : M unit := λ w, (Ret (), emit [e] w).

(** [print(...)] and friends. *)
Definition print (o : output) : M unit := log (EOut o).

(** [try: m  except: h e], where [h] decides what it handles. *)
Definition try_except {A : Type} (m : M A) (h : exn → M A) : M A := λ w,
  match m w with
  | (Raise e, w') => h e w'
  | r => r
  end.

(** [try: m  finally: f]. *)
Definition try_finally {A : Type} (m : M A) (f : M unit) : M A := λ w,
  match m w with
  | (Ret a, w') => (_ ← f; mret a) w'
  | (Raise e, w') => (_ ← f; raise e) w'
  | (Diverge, w') => (Diverge, w')
  end.

(** Database methods called through the handle. *)
Definition db_query {A : Type} (c : db_call) (f : DB → A) : M A := λ w,
  (Ret (f (w_db w)), emit [EDb c] w).

Definition db_command (c : db_call) (f : DB → DB) : M unit := λ w,
  (Ret (), emit [EDb c] (with_db f w)).

Definition db_is_fts_enabled : M bool := db_query c_is_fts_enabled is_fts_enabled.
Definition db_fts_indexing_progress : M (Z * Z) :=
  db_query c_fts_indexing_progress fts_indexing_progress.
Definition db_enable_fts (enabled : bool) : M unit :=
  db_command (c_enable_fts enabled) (enable_fts enabled).
Definition db_reindex_fts : M unit := db_command c_reindex_fts reindex_fts.
Definition db_reindex_fts_book (item : tuple) : M unit :=
  db_command (c_reindex_fts_book item) (reindex_fts_book item).
Definition db_add_listener (cb : callback) : M unit :=
  db_command (c_add_listener cb) (add_listener cb).
Definition db_set_fts_speed (slow : bool) : M unit :=
  db_command (c_set_fts_speed slow) (set_fts_speed slow).

(** [for x in xs: body x]. *)
Fixpoint for_each {A : Type} (xs : list A) (body : A → M unit) : M unit :=
  match xs with
  | [] => mret ()
  | x :: xs' => _ ← body x; for_each xs' body
  end.

(** ** The memoized tracker (lines 10-34) *)

(** [indexing_progress()] under [lru_cache]: the cached object if there is
    one, otherwise a new [IndexingProgress] with a new [Lock], stored in
    the cache.  The answer is a reference to the object. *)
Definition indexing_progress : M tracker := λ w,
  match w_cache w with
  | Some ans => (Ret ans, w)
  | None =>
      let r := w_objects w in
      let ans := mk_tracker r (S r) IndexingProgress_init in
      (Ret ans, emit [EConstruct r (S r)] (with_objects (S (S r)) (with_cache (Some ans) w)))
  end.

(** The state of the object with identity [r], and its update in place. *)
Definition obj_state (r : nat) (w : World) : IndexingProgress :=
  match w_cache w with
  | Some o => if (tr_id o =? r)%nat then tr_state o else IndexingProgress_init
  | None => IndexingProgress_init
  end.

Definition obj_modify (r : nat) (f : IndexingProgress → IndexingProgress) (w : World) : World :=
  match w_cache w with
  | Some o =>
      if (tr_id o =? r)%nat
      then with_cache (Some (mk_tracker (tr_id o) (tr_lock o) (f (tr_state o)))) w
      else w
  | None => w
  end.

(** [with lock: body]. *)
Definition with_lock {A : Type} (lk : nat) (body : M A) : M A :=
  _ ← log (EAcquire lk); try_finally body (log (ERelease lk)).

Definition update_indexing_progress (left total : Z) : M unit :=
  ip ← indexing_progress;
  with_lock (tr_lock ip)
    (λ w, (Ret (), emit [EUpdate (tr_id ip) left total]
                        (obj_modify (tr_id ip) (ip_update left total) w))).

Definition reset_indexing_progress : M unit :=
  ip ← indexing_progress;
  with_lock (tr_lock ip)
    (λ w, (Ret (), emit [EReset (tr_id ip)] (obj_modify (tr_id ip) ip_reset w))).

Definition indexing_progress_time_left : M estimate :=
  ip ← indexing_progress;
  with_lock (tr_lock ip)
    (λ w, (Ret (time_left_of (obj_state (tr_id ip) w)), emit [ETimeLeft (tr_id ip)] w)).

(** ** [implementation] (lines 37-68) *)

(** The dictionary the three reporting actions return. *)
Record Status := mk_status {
  enabled : bool;
  left : Z;
  total : Z
}.

(** [l, t = db.fts_indexing_progress(); return {'enabled': True, ...}]. *)
Definition report_progress : M (option Status) :=
  '(l, t) ← db_fts_indexing_progress;
  mret (Some (mk_status true l t)).

(** [implementation(db, notify_changes, action, adata=None)].  The handle
    [db] is the database of the world; [notify_changes] is not used by the
    body.  [adata] is [None] or a dictionary whose ['items'] entry, if
    present, is a sequence of item tuples.  The result is [None] or a
    status dictionary. *)
Definition implementation (action : string) (adata : option (gmap string (list tuple)))
  : M (option Status) :=
  if String.eqb action "status" then
    en ← db_is_fts_enabled;
    if en : bool then report_progress
    else mret (Some (mk_status false (-1) (-1)))
  else if String.eqb action "enable" then
    en ← db_is_fts_enabled;
    _ ← (if negb en then db_enable_fts true else mret ());
    report_progress
  else if String.eqb action "disable" then
    en ← db_is_fts_enabled;
    _ ← (if en : bool then _ ← reset_indexing_progress; db_enable_fts false else mret ());
    mret None
  else if String.eqb action "reindex" then
    en ← db_is_fts_enabled;
    if negb en then
      raise (mk_exn Exception
                    (Some (PStr (gettext "Full text indexing is not enabled on this library")))
                    true)
    else
      match adata with
      | None => raise (mk_exn AttributeError
                              (Some (PStr "'NoneType' object has no attribute 'get'")) false)
      | Some d =>
          _ ← match d !! "items" with
              | Some (item :: items) => for_each (item :: items) db_reindex_fts_book
              | _ => db_reindex_fts
              end;
          report_progress
      end
  else mret None.

(** ** [local_wait_for_completion] (lines 105-132) *)

(** Where the waiting thread stands: before [db.add_listener] (line 119),
    registered and about to read the starting progress (lines 120-125),
    at [q.get()] in the loop (line 128), returned, or unwound by an
    exception. *)
Inductive waiter_pc :=
| WStart
| WRegistered
| WLoop
| WReturned
| WRaised (e : exn).

(** The waiter together with what it shares with the dispatcher thread:
    the world and the queue [q].  [wt_consumed] records what [q.get()] has
    returned so far. *)
Record Waiter := mk_waiter {
  wt_world : World;
  wt_queue : list (Z * Z);
  wt_pc : waiter_pc;
  wt_consumed : list (Z * Z)
}.

(** The world left by a computation that returns. *)
Definition run_in {A : Type} (m : M A) (w : World) : World := snd (m w).

(** [listen(event_type, library_id, event_data)] (lines 111-114). *)
Definition listen (ev : event) (s : Waiter) : Waiter :=
  match ev with
  | IndexingProgressChanged _ l t =>
      mk_waiter (run_in (update_indexing_progress l t) (wt_world s))
                (wt_queue s ++ [(l, t)]) (wt_pc s) (wt_consumed s)
  | OtherEvent _ _ => s
  end.

(** [show_progress(left, total)] (lines 116-117). *)
Definition show_progress (left total : Z) : M unit :=
  tl ← indexing_progress_time_left;
  print (OutFormat (String "013" (String "027" "[K"))
                   (gettext "{} of {} book files indexed, {}")
                   [FInt (total - left); FInt total; FTimeLeft tl] " ...").

(** Lines 120-125: returns whether the loop is to be entered. *)
Definition read_start (indexing_speed : string) : M bool :=
  _ ← (if String.eqb indexing_speed EmptyString then mret ()
       else db_set_fts_speed (String.eqb indexing_speed "slow"));
  '(l, t) ← db_fts_indexing_progress;
  if (l <? 1)%Z then mret false
  else _ ← show_progress l t; mret true.

(** One step of the waiting thread.  At [q.get()] with an empty queue the
    thread stays where it is: it is blocked. *)
Definition waiter_step (indexing_speed : string) (s : Waiter) : Waiter :=
  match wt_pc s with
  | WStart =>
      mk_waiter (run_in (db_add_listener CbListen) (wt_world s))
                (wt_queue s) WRegistered (wt_consumed s)
  | WRegistered =>
      match read_start indexing_speed (wt_world s) with
      | (Ret true, w') => mk_waiter w' (wt_queue s) WLoop (wt_consumed s)
      | (Ret false, w') => mk_waiter w' (wt_queue s) WReturned (wt_consumed s)
      | (Raise e, w') => mk_waiter w' (wt_queue s) (WRaised e) (wt_consumed s)
      | (Diverge, _) => s
      end
  | WLoop =>
      match wt_queue s with
      | [] => s
      | (l, t) :: q' =>
          if (l <? 1)%Z
          then mk_waiter (run_in (print (OutLine EmptyString)) (wt_world s))
                         q' WReturned (wt_consumed s ++ [(l, t)])
          else mk_waiter (run_in (show_progress l t) (wt_world s))
                         q' WLoop (wt_consumed s ++ [(l, t)])
      end
  | WReturned | WRaised _ => s
  end.

(** The dispatcher thread delivers an event: the listener runs if the
    database has it registered. *)
Definition dispatch (ev : event) (s : Waiter) : Waiter :=
  if bool_decide (CbListen ∈ registered (w_db (wt_world s))) then listen ev s else s.

(** Ctrl-C: [KeyboardInterrupt] is raised in the waiting thread, wherever
    it stands. *)
Definition interrupt (s : Waiter) : Waiter :=
  match wt_pc s with
  | WStart | WRegistered | WLoop =>
      mk_waiter (wt_world s) (wt_queue s)
                (WRaised (mk_exn KeyboardInterrupt None false)) (wt_consumed s)
  | _ => s
  end.

Definition apply_act (indexing_speed : string) (s : Waiter) (a : act) : Waiter :=
  match a with
  | Deliver ev => dispatch ev s
  | WaiterStep => waiter_step indexing_speed s
  | Interrupt => interrupt s
  end.

(** A run under a schedule of the threads. *)
Definition exec (indexing_speed : string) (sched : list act) (s : Waiter) : Waiter :=
  fold_left (apply_act indexing_speed) sched s.

(** The waiter at the call, with its new empty queue. *)
Definition wait_init (w : World) : Waiter := mk_waiter w [] WStart [].

(** The call as [main] sees it: the schedule of the world is played, then
    the waiting thread runs on alone; if that leaves it at [q.get()] with
    an empty queue the call never returns. *)
Definition local_wait_for_completion (indexing_speed : string) : M unit := λ w,
  let s := exec indexing_speed (w_sched w) (wait_init (with_sched [] w)) in
  let s' := exec indexing_speed (repeat WaiterStep (2 + length (wt_queue s))) s in
  match wt_pc s' with
  | WReturned => (Ret (), wt_world s')
  | WRaised e => (Raise e, wt_world s')
  | _ => (Diverge, wt_world s')
  end.

(** Delivery of a progress event, and the progress pairs a schedule
    delivers, in order. *)
Definition delivery (l t : Z) : act := Deliver (IndexingProgressChanged EmptyString l t).

Fixpoint delivered (sched : list act) : list (Z * Z) :=
  match sched with
  | [] => []
  | Deliver (IndexingProgressChanged _ l t) :: sched' => (l, t) :: delivered sched'
  | _ :: sched' => delivered sched'
  end.

(** The number of steps the waiting thread takes in a schedule. *)
Fixpoint waiter_steps (sched : list act) : nat :=
  match sched with
  | [] => 0
  | WaiterStep :: sched' => S (waiter_steps sched')
  | _ :: sched' => waiter_steps sched'
  end.

(** The database as the waiter has left it when it reads the starting
    progress on line 122: the listener added, the speed set if asked. *)
Definition db_at_read (indexing_speed : string) (db : DB) : DB :=
  if String.eqb indexing_speed EmptyString then add_listener CbListen db
  else set_fts_speed (String.eqb indexing_speed "slow") (add_listener CbListen db).

(** The database calls the waiter makes up to and including that read. *)
Definition calls_to_read (indexing_speed : string) : list db_call :=
  if String.eqb indexing_speed EmptyString
  then [c_add_listener CbListen; c_fts_indexing_progress]
  else [c_add_listener CbListen; c_set_fts_speed (String.eqb indexing_speed "slow");
        c_fts_indexing_progress].

(** The updates of the tracker recorded in a trace. *)
Fixpoint tracker_updates (tr : list effect) : list (Z * Z) :=
  match tr with
  | [] => []
  | EUpdate _ l t :: tr' => (l, t) :: tracker_updates tr'
  | _ :: tr' => tracker_updates tr'
  end.

(** The database calls recorded in a trace. *)
Fixpoint db_calls (tr : list effect) : list db_call :=
  match tr with
  | [] => []
  | EDb c :: tr' => c :: db_calls tr'
  | _ :: tr' => db_calls tr'
  end.

(** ** [main] (lines 135-223) *)

(** The parsed options [main] reads. *)
Record Opts := mk_opts {
  wait_for_completion : bool;
  indexing_speed : string
}.

(** Modelled from the spec: the job context [dbctx] (class [DBCtx] of
    [calibre.db.cli.main], not under [src/]), by what [main] uses of it:
    whether the library is remote, and [run], which submits a command
    with its arguments and returns its result or raises.  Section 4.4
    leaves the remote mode opaque, so [run] is a field. *)
Record DbCtx := mk_dbctx {
  is_remote : bool;
  run : string → string → gmap string (list tuple) → M (option Status)
}.

(** Modelled from the spec: the context of a local library, whose [run]
    is a direct call of [implementation] in this process (section 4.4). *)
Definition local_ctx : DbCtx :=
  mk_dbctx false (λ _ which data, implementation which (Some data)).

(** [run_job(dbctx, which, **kw)] (lines 142-150), with [adata = {}]. *)
Definition run_job (dbctx : DbCtx) (which : string) (kw : gmap string (list tuple))
  : M (option Status) :=
  let adata : gmap string (list tuple) := ∅ in
  let data := kw ∪ adata in
  try_except (run dbctx "fts_index" which data)
    (λ e, if isinstance_Exception (exn_class e)
          then if suppress_traceback e
               then raise (system_exit (PStr (str_exn e)))
               else raise e
          else raise e).

(** [to_spec(x)] (lines 181-187). *)
Definition to_spec (x : string) : outcome tuple :=
  let parts := split1 ":" x in
  match py_int (hd EmptyString parts) with
  | None => Raise (int_error (hd EmptyString parts))
  | Some book_id =>
      if (length parts =? 1)%nat then Ret [PInt book_id]
      else
        let fmts := map (λ x, PStr (upper x)) (split "," (nth 1 parts EmptyString)) in
        Ret ([PInt book_id] ++ fmts)%list
  end.

(** [tuple(map(to_spec, items))]: the first failure ends the traversal. *)
Fixpoint map_to_spec (items : list string) : M (list tuple) :=
  match items with
  | [] => mret []
  | x :: items' =>
      match to_spec x with
      | Ret spec => specs ← map_to_spec items'; mret (spec :: specs)
      | Raise e => raise e
      | Diverge => λ w, (Diverge, w)
      end
  end.

(** [s[key]] on the result of a job: [None] cannot be subscripted. *)
Definition subscript (s : option Status) : M Status :=
  match s with
  | Some d => mret d
  | None => raise (mk_exn TypeError (Some (PStr "'NoneType' object is not subscriptable")) false)
  end.

Definition newline : string := String "010" EmptyString.

(** The double quote character, and a word between double quotes. *)
Definition dquote : ascii := "034".

Definition quoted (word : string) : string := String dquote (word +:+ String dquote EmptyString).

(** [print(_('{0} of {1} books files indexed').format(...))]. *)
Definition print_indexed (s : option Status) : M unit :=
  d ← subscript s;
  print (OutFormat EmptyString (gettext "{0} of {1} books files indexed")
                   [FInt (total d - left d); FInt (total d)] newline).

(** [input(prompt)]. *)
Definition input (prompt : output) : M string := λ w,
  let w1 := emit [EOut prompt] w in
  match w_stdin w with
  | [] => (Raise (mk_exn EOFError (Some (PStr "EOF when reading a line")) false), w1)
  | InputLine s :: rest => (Ret s, with_stdin rest w1)
  | InputInterrupt :: rest => (Raise (mk_exn KeyboardInterrupt None false), with_stdin rest w1)
  end.

(** [except KeyboardInterrupt: sys.excepthook = lambda *a: None; raise]. *)
Definition silencing_interrupt {A : Type} (m : M A) : M A :=
  try_except m
    (λ e, match exn_class e with
          | KeyboardInterrupt => λ w, (Raise e, silence_excepthook w)
          | _ => raise e
          end).

(** The question put before [reindex] of the whole library and before
    [disable]: the line typed by the user. *)
Definition ask (word : string) : M string :=
  silencing_interrupt
    (input (OutFormat EmptyString (gettext "Type {} to proceed, anything else to abort")
                      [FStr word] ": ")).

(** Lines 212-223. *)
Definition wait_and_finish (opts : Opts) (dbctx : DbCtx) : M Z :=
  if wait_for_completion opts then
    _ ← print (OutLine (gettext "Waiting for FTS indexing to complete, press Ctrl-C to abort..."));
    _ ← silencing_interrupt
          (if is_remote dbctx
           then raise (mk_exn NotImplementedError
                              (Some (PStr "TODO: Implement waiting for completion via polling"))
                              false)
           else local_wait_for_completion (indexing_speed opts));
    _ ← print (OutLine (gettext "All books indexed!"));
    mret 0
  else mret 0.

Definition main (opts : Opts) (args : list string) (dbctx : DbCtx) : M Z :=
  match args with
  | [] =>
      _ ← print OutHelp;
      raise (system_exit (PStr (gettext "Error: You must specify the indexing action")))
  | action :: items =>
      if String.eqb action "status" then
        s ← run_job dbctx "status" ∅;
        d ← subscript s;
        if enabled d then
          _ ← print (OutLine (gettext "FTS Indexing is enabled"));
          _ ← print_indexed s;
          wait_and_finish opts dbctx
        else
          _ ← print (OutLine (gettext "FTS Indexing is disabled"));
          raise (system_exit (PInt 2))
      else if String.eqb action "enable" then
        s ← run_job dbctx "enable" ∅;
        _ ← print (OutLine (gettext "FTS indexing has been enabled"));
        _ ← print_indexed s;
        wait_and_finish opts dbctx
      else if String.eqb action "reindex" then
        proceed ← match items with
                  | [] =>
                      _ ← print (OutLine (gettext
                             "Re-indexing the entire library can take a long time. Are you sure?"));
                      q ← ask (quoted "reindex");
                      mret (String.eqb (strip dquote q) "reindex")
                  | _ => mret true
                  end;
        if proceed : bool then
          specs ← map_to_spec items;
          s ← run_job dbctx "reindex" {[ "items" := specs ]};
          _ ← print_indexed s;
          wait_and_finish opts dbctx
        else mret 0
      else if String.eqb action "disable" then
        _ ← print (OutLine (gettext
               "Disabling indexing will mean that all books will have to be re-checked when re-enabling indexing. Are you sure?"));
        q ← ask (quoted "disable");
        if String.eqb q "disable" || String.eqb q (quoted "disable") then
          _ ← run_job dbctx "disable" ∅;
          _ ← print (OutLine (gettext "FTS indexing has been disabled"));
          mret 0
        else mret 0
      else
        _ ← print OutHelp;
        raise (system_exit (PStr (action +:+ " is not a known action")))
  end.

(** ** Vocabulary for the statements *)






(** The remaining count the waiter reads on line 122. *)
Definition starting_left (indexing_speed : string) (w : World) : Z :=
  fst (fts_indexing_progress (db_at_read indexing_speed (w_db w))).

(** What holds of every state the waiter reaches from [wait_init w0]: the
    database is what the calls made so far have made of it, and nothing
    has been dequeued unless the loop was entered. *)
Definition reach_inv (w0 : World) (indexing_speed : string) (s : Waiter) : Prop :=
  match wt_pc s with
  | WStart =>
      w_db (wt_world s) = w_db w0 ∧
      db_calls (w_trace (wt_world s)) = db_calls (w_trace w0) ∧
      wt_consumed s = []
  | WRegistered =>
      w_db (wt_world s) = add_listener CbListen (w_db w0) ∧
      db_calls (w_trace (wt_world s)) = (db_calls (w_trace w0) ++ [c_add_listener CbListen])%list ∧
      wt_consumed s = []
  | WLoop =>
      w_db (wt_world s) = db_at_read indexing_speed (w_db w0) ∧
      db_calls (w_trace (wt_world s))
        = (db_calls (w_trace w0) ++ calls_to_read indexing_speed)%list ∧
      (1 ≤ starting_left indexing_speed w0)%Z
  | WReturned =>
      w_db (wt_world s) = db_at_read indexing_speed (w_db w0) ∧
      db_calls (w_trace (wt_world s))
        = (db_calls (w_trace w0) ++ calls_to_read indexing_speed)%list ∧
      (wt_consumed s = [] ∨ (1 ≤ starting_left indexing_speed w0)%Z)
  | WRaised _ =>
      wt_consumed s = [] ∨ (1 ≤ starting_left indexing_speed w0)%Z
  end.

(** What holds of the registered waiter while the events [pre ++ [last]]
    arrive, [d] being those delivered so far: every one of them has
    reached the tracker, and they are in the queue or dequeued, in order;
    the waiter has returned exactly when it has dequeued them all. *)
Definition wait_inv (w0 : World) (pre : list (Z * Z)) (last : Z * Z)
    (d : list (Z * Z)) (s : Waiter) : Prop :=
  CbListen ∈ registered (w_db (wt_world s)) ∧
  tracker_updates (w_trace (wt_world s)) = (tracker_updates (w_trace w0) ++ d)%list ∧
  match wt_pc s with
  | WRegistered =>
      w_db (wt_world s) = add_listener CbListen (w_db w0) ∧
      wt_consumed s = [] ∧ wt_queue s = d
  | WLoop =>
      (wt_consumed s ++ wt_queue s)%list = d ∧
      Forall (λ e, (1 ≤ fst e)%Z) (wt_consumed s)
  | WReturned =>
      wt_consumed s = (pre ++ [last])%list ∧ wt_queue s = [] ∧ d = (pre ++ [last])%list
  | _ => False
  end.

(** An upper bound on the steps the waiter needs once everything has been
    delivered. *)
Definition steps_to_return (s : Waiter) : nat :=
  match wt_pc s with
  | WRegistered => S (length (wt_queue s))
  | WLoop => length (wt_queue s)
  | _ => 0
  end.

(** The progress lines written by [show_progress], as the pairs
    (files indexed, total) they show. *)
Fixpoint progress_shown (tr : list effect) : list (Z * Z) :=
  match tr with
  | [] => []
  | EOut (OutFormat _ _ [FInt n; FInt tot; FTimeLeft _] _) :: tr' =>
      (n, tot) :: progress_shown tr'
  | _ :: tr' => progress_shown tr'
  end.

(** What [show_progress(left, total)] shows of a progress pair. *)
Definition shown_for (e : Z * Z) : Z * Z := (snd e - fst e, snd e).

(** A schedule without its deliveries of events of other types. *)
Fixpoint drop_other (sched : list act) : list act :=
  match sched with
  | [] => []
  | Deliver (OtherEvent _ _) :: sched' => drop_other sched'
  | a :: sched' => a :: drop_other sched'
  end.

(** A run of [n] double quotes. *)
Fixpoint quotes (n : nat) : string :=
  match n with
  | O => EmptyString
  | S n' => String dquote (quotes n')
  end.

(** The answers the question before [disable] takes for a yes. *)
Definition accepts_disable (q : string) : bool :=
  String.eqb q "disable" || String.eqb q (quoted "disable").

(** The effects [implementation] can have: database calls other than the
    waiter's, and operations on the tracker; no output. *)
Definition job_effect (e : effect) : bool :=
  match e with
  | EDb (c_add_listener _) | EDb (c_set_fts_speed _) | EOut _ => false
  | _ => true
  end.

(** The database after [reindex_fts_book] called on each item in turn. *)
Definition reindex_books (items : list tuple) (db : DB) : DB :=
  fold_left (λ db item, reindex_fts_book item db) items db.

(** The part of an item before its first colon. *)
Definition before_colon (x : string) : string := hd EmptyString (split1 ":" x).

(** The characters of an integer literal: white space, signs, digits and
    the underscore. *)
Definition int_char (c : ascii) : bool :=
  is_space c || Ascii.eqb c "+" || Ascii.eqb c "-" || is_digit c || Ascii.eqb c "_".

Fixpoint int_chars (s : string) : bool :=
  match s with
  | EmptyString => true
  | String c s' => int_char c && int_chars s'
  end.

(** The pairs of a world that neither [implementation] nor the waiter
    is to touch: standard input, the exception hook and the schedule. *)
Definition console (w : World) : list input_result * bool * list act :=
  (w_stdin w, w_excepthook_silenced w, w_sched w).

(** What holds of the progress lines in every state the waiter reaches
    from [wait_init w0]: one for the starting progress when the loop is
    entered, then one for each event dequeued that is not terminal. *)
Definition shown_inv (w0 : World) (indexing_speed : string) (s : Waiter) : Prop :=
  let start := fts_indexing_progress (db_at_read indexing_speed (w_db w0)) in
  match wt_pc s with
  | WStart | WRegistered =>
      progress_shown (w_trace (wt_world s)) = progress_shown (w_trace w0)
  | WLoop =>
      progress_shown (w_trace (wt_world s))
        = (progress_shown (w_trace w0)
           ++ shown_for start :: map shown_for (wt_consumed s))%list
  | WReturned =>
      (wt_consumed s = [] ∧
       progress_shown (w_trace (wt_world s)) = progress_shown (w_trace w0)) ∨
      (∃ c e, wt_consumed s = (c ++ [e])%list ∧
              progress_shown (w_trace (wt_world s))
                = (progress_shown (w_trace w0) ++ shown_for start :: map shown_for c)%list)
  | WRaised _ => True
  end.

(** The four actions the command knows. *)
Definition known_actions : list string := ["status"; "enable"; "disable"; "reindex"].

End Command.

Arguments World DB : clear implicits.
Arguments Waiter DB : clear implicits.
Arguments DbCtx DB : clear implicits.
Arguments M DB A : clear implicits.

(** ** A concrete database for the examples *)

(** Modelled from the spec: a database handle with exactly the state that
    section 6 makes observable: the enabled flag, the progress pair, the
    registered callbacks, the indexing speed and the re-indexing requests
    received ([None] for the whole library). *)
Record MockDb := mk_mock {
  m_enabled : bool;
  m_progress : Z * Z;
  m_listeners : list callback;
  m_slow : option bool;
  m_requests : list (option tuple)
}.

#[global] Instance MockDb_api : DbApi MockDb.
Proof.
  refine {|
    is_fts_enabled := m_enabled;
    enable_fts := λ en db,
      mk_mock en (m_progress db) (m_listeners db) (m_slow db) (m_requests db);
    fts_indexing_progress := m_progress;
    reindex_fts := λ db,
      mk_mock (m_enabled db) (m_progress db) (m_listeners db) (m_slow db)
              (m_requests db ++ [None]);
    reindex_fts_book := λ item db,
      mk_mock (m_enabled db) (m_progress db) (m_listeners db) (m_slow db)
              (m_requests db ++ [Some item]);
    add_listener := λ cb db,
      mk_mock (m_enabled db) (m_progress db) (m_listeners db ++ [cb]) (m_slow db)
              (m_requests db);
    set_fts_speed := λ slow db,
      mk_mock (m_enabled db) (m_progress db) (m_listeners db) (Some slow)
              (m_requests db);
    registered := m_listeners
  |}.
  - intros cb db. simpl. apply elem_of_app. right. apply list_elem_of_singleton. reflexivity.
  - intros slow db. reflexivity.
Defined.

(** A database with indexing switched on or off and a given progress. *)
Definition mock_db (en : bool) (l t : Z) : MockDb := mk_mock en (l, t) [] None [].

(** A world at the start of a process: nothing cached, nothing traced. *)
Definition fresh_world {DB : Type} (db : DB) (stdin : list input_result) (sched : list act)
  : World DB :=
  mk_world db None 0 [] stdin false sched.

(** * Properties *)

(** Membership in an explicit list of distinct constructors fails. *)
Ltac not_in_list :=
  let H := fresh "H" in
  intros H; repeat (apply elem_of_cons in H as [H|H]; [discriminate H|]); inversion H.

Section Properties.

Local Open Scope list_scope.

Context {DB : Type} `{!DbApi DB}.
Variable gettext : string → string.

Implicit Types (w : World DB) (s : Waiter DB).

(** Unfolding of the monad and of the primitive effects. *)
Ltac run_m :=
  repeat (cbv beta iota delta
            [mbind M_bind mret M_ret raise log print try_except try_finally
             db_query db_command db_is_fts_enabled db_fts_indexing_progress
             db_enable_fts db_reindex_fts db_reindex_fts_book db_add_listener
             db_set_fts_speed report_progress run_in with_lock];
          cbn [fst snd w_db w_cache w_objects w_trace w_stdin
               w_excepthook_silenced w_sched with_db with_cache with_objects
               emit with_stdin silence_excepthook with_sched]).

(** Equality of two worlds built by the same updates. *)
Ltac world_eq :=
  unfold emit, with_cache, with_db, with_objects, with_stdin, with_sched,
    silence_excepthook;
  cbn [w_db w_cache w_objects w_trace w_stdin w_excepthook_silenced w_sched];
  rewrite <- ?app_assoc; reflexivity.

(** Closing the conjuncts of an invariant from the hypotheses. *)
Ltac close_inv :=
  repeat split;
  first [assumption | reflexivity | (left; assumption) | (right; assumption) | lia].

(** ** The dispatcher [implementation] *)

Lemma unknown_action_eqb (action : string) :
  action ∉ known_actions →
  String.eqb action "status" = false ∧ String.eqb action "enable" = false ∧
  String.eqb action "disable" = false ∧ String.eqb action "reindex" = false.
Proof.
  unfold known_actions. intros Hn.
  repeat split; apply String.eqb_neq; intros ->; apply Hn; set_solver.
Qed.

(** C5: for every database handle, [implementation(db, notify_changes,
    'status')] returns [{enabled: False, left: -1, total: -1}] when
    [db.is_fts_enabled()] is false, and [{enabled: True, left: l, total: t}]
    with [(l, t) = db.fts_indexing_progress()] when it is true; in both
    cases the database is left as it was. *)
Theorem C5_status_result w (adata : option (gmap string (list tuple))) :
  (is_fts_enabled (w_db w) = false →
     fst (implementation gettext "status" adata w)
       = Ret (Some (mk_status false (-1) (-1)))) ∧
  (is_fts_enabled (w_db w) = true →
     fst (implementation gettext "status" adata w)
       = Ret (Some (mk_status true (fst (fts_indexing_progress (w_db w)))
                                   (snd (fts_indexing_progress (w_db w)))))) ∧
  w_db (snd (implementation gettext "status" adata w)) = w_db w.
Proof.
  unfold implementation; cbn [String.eqb Ascii.eqb Bool.eqb]. run_m.
  destruct (is_fts_enabled (w_db w)) eqn:Hen; run_m.
  - destruct (fts_indexing_progress (w_db w)) as [l t] eqn:Hp; run_m.
    split; [discriminate | split; reflexivity].
  - split; [reflexivity | split; [discriminate | reflexivity]].
Qed.

(** C9: for every action string that is not one of 'status', 'enable',
    'disable', 'reindex', [implementation] returns [None] and leaves the
    world untouched: no database call, no tracker operation, no output. *)
Theorem C9_unknown_action_is_silent w (action : string)
    (adata : option (gmap string (list tuple))) :
  action ∉ known_actions →
  implementation gettext action adata w = (Ret None, w).
Proof.
  intros Hn. destruct (unknown_action_eqb action Hn) as (H1 & H2 & H3 & H4).
  unfold implementation. rewrite H1, H2, H3, H4. reflexivity.
Qed.

(** C6: [implementation(db, notify_changes, 'disable')] returns nothing.
    When [db.is_fts_enabled()] is true it resets the shared progress state
    to the unset sentinel through [reset_indexing_progress] and only then
    calls [db.enable_fts(enabled=False)]; when indexing is already
    disabled it performs neither: the world changes by the logged query
    alone. *)
Theorem C6_disable w (adata : option (gmap string (list tuple))) :
  fst (implementation gettext "disable" adata w) = Ret None ∧
  (is_fts_enabled (w_db w) = true →
     ∃ ip,
       w_cache (snd (implementation gettext "disable" adata w)) = Some ip ∧
       tr_state ip = mk_ip (-1) (-1) [] ∧
       w_trace (snd (implementation gettext "disable" adata w))
         = (w_trace w ++ [EDb c_is_fts_enabled]
            ++ match w_cache w with
               | Some _ => []
               | None => [EConstruct (tr_id ip) (tr_lock ip)]
               end
            ++ [EAcquire (tr_lock ip); EReset (tr_id ip); ERelease (tr_lock ip);
                EDb (c_enable_fts false)])%list ∧
       w_db (snd (implementation gettext "disable" adata w)) = enable_fts false (w_db w)) ∧
  (is_fts_enabled (w_db w) = false →
     snd (implementation gettext "disable" adata w) = emit [EDb c_is_fts_enabled] w).
Proof.
  unfold implementation; cbn [String.eqb Ascii.eqb Bool.eqb]. run_m.
  destruct (is_fts_enabled (w_db w)) eqn:Hen.
  - unfold reset_indexing_progress, indexing_progress. run_m.
    destruct (w_cache w) as [o|] eqn:Hc; run_m.
    + split; [reflexivity | split; [intros _ | discriminate]].
      unfold obj_modify; run_m. rewrite Hc, Nat.eqb_refl; run_m.
      eexists; split; [reflexivity | split; [reflexivity | split; [|reflexivity]]].
      cbn. rewrite <- !app_assoc. reflexivity.
    + split; [reflexivity | split; [intros _ | discriminate]].
      unfold obj_modify; run_m. rewrite Nat.eqb_refl; run_m.
      eexists; split; [reflexivity | split; [reflexivity | split; [|reflexivity]]].
      cbn. rewrite <- !app_assoc. reflexivity.
  - run_m. split; [reflexivity | split; [discriminate | reflexivity]].
Qed.

(** ** [run_job] and the user-facing failure *)

(** C4: [implementation(db, notify_changes, 'reindex', adata)] called
    while [db.is_fts_enabled()] is false raises an [Exception] marked
    [suppress_traceback] that carries the translated message, whatever
    [adata] is and before any re-indexing call.  [run_job] turns an
    instance of [Exception] that is so marked into [SystemExit(str(e))];
    every other raised object leaves [run_job] unchanged, and so does
    every result.  So on a local library [run_job] ends the [reindex] of a
    library without indexing in [SystemExit] with that message. *)
Theorem C4_user_facing_failure :
  (∀ w (adata : option (gmap string (list tuple))),
     is_fts_enabled (w_db w) = false →
     implementation gettext "reindex" adata w
       = (Raise (mk_exn Exception
                        (Some (PStr (gettext "Full text indexing is not enabled on this library")))
                        true),
          emit [EDb c_is_fts_enabled] w)) ∧
  (∀ (dbctx : DbCtx DB) (which : string) (kw : gmap string (list tuple)) w,
     match run dbctx "fts_index" which kw w with
     | (Raise e, w') =>
         run_job dbctx which kw w
           = (Raise (if isinstance_Exception (exn_class e) && suppress_traceback e
                     then mk_exn SystemExit (Some (PStr (str_exn e))) false
                     else e), w')
     | (r, w') => run_job dbctx which kw w = (r, w')
     end) ∧
  (∀ w (kw : gmap string (list tuple)),
     is_fts_enabled (w_db w) = false →
     run_job (local_ctx gettext) "reindex" kw w
       = (Raise (mk_exn SystemExit
                        (Some (PStr (gettext "Full text indexing is not enabled on this library")))
                        false),
          emit [EDb c_is_fts_enabled] w)).
Proof.
  assert (∀ w (adata : option (gmap string (list tuple))),
            is_fts_enabled (w_db w) = false →
            implementation gettext "reindex" adata w
              = (Raise (mk_exn Exception
                          (Some (PStr (gettext
                             "Full text indexing is not enabled on this library"))) true),
                 emit [EDb c_is_fts_enabled] w)) as Himpl.
  { intros w adata Hen.
    unfold implementation; cbn [String.eqb Ascii.eqb Bool.eqb]. run_m.
    rewrite Hen. reflexivity. }
  split; [exact Himpl|]. split.
  - intros dbctx which kw w. unfold run_job. run_m.
    rewrite (right_id_L ∅ (∪) kw).
    destruct (run dbctx "fts_index" which kw w) as [[v|e|] w'] eqn:Hr; try reflexivity.
    destruct (isinstance_Exception (exn_class e)), (suppress_traceback e); reflexivity.
  - intros w kw Hen. unfold run_job, local_ctx. run_m. cbn [run].
    rewrite (Himpl w _ Hen). reflexivity.
Qed.

(** ** [main] *)

(** C8: for every action string that is not one of 'status', 'enable',
    'disable', 'reindex', [main] prints the help and raises [SystemExit]
    with the message [action + ' is not a known action']; the exit status
    of the process is 1.  Nothing else happens: no job is run. *)
Theorem C8_unknown_action_exit (opts : Opts) (action : string) (rest : list string)
    (dbctx : DbCtx DB) w :
  action ∉ known_actions →
  main gettext opts (action :: rest) dbctx w
    = (Raise (mk_exn SystemExit (Some (PStr (action +:+ " is not a known action"))) false),
       emit [EOut OutHelp] w) ∧
  exit_status (mk_exn SystemExit (Some (PStr (action +:+ " is not a known action"))) false) = 1.
Proof.
  intros Hn. destruct (unknown_action_eqb action Hn) as (H1 & H2 & H3 & H4).
  unfold main. rewrite H1, H2, H3, H4. split; reflexivity.
Qed.

(** ** [to_spec] *)

Lemma append_empty (s : string) : EmptyString +:+ s = s.
Proof. reflexivity. Qed.

Lemma append_String (c : ascii) (a b : string) : String c a +:+ b = String c (a +:+ b).
Proof. reflexivity. Qed.

Lemma int_char_colon (c : ascii) : int_char c = true → Ascii.eqb c ":" = false.
Proof. destruct c as [[] [] [] [] [] [] [] []]; cbv; congruence. Qed.

Lemma int_char_ascii (c : ascii) : int_char c = true → (nat_of_ascii c <? 128)%nat = true.
Proof. destruct c as [[] [] [] [] [] [] [] []]; cbv; congruence. Qed.

Lemma skip_spaces_chars (s : string) :
  int_chars (skip_spaces s) = true → int_chars s = true.
Proof.
  induction s as [|c s IH]; [reflexivity|].
  cbn [skip_spaces]. destruct (is_space c) eqn:Hc; [|exact (λ H, H)].
  intros Hs. cbn [int_chars]. rewrite (IH Hs), andb_true_r.
  unfold int_char. rewrite Hc. reflexivity.
Qed.

Lemma scan_digits_chars (s : string) :
  ∀ prev acc digits acc' digits' rest,
    scan_digits prev acc digits s = Some (acc', digits', rest) →
    int_chars rest = true → int_chars s = true.
Proof.
  induction s as [|c s IH]; intros prev acc digits acc' digits' rest.
  { cbn [scan_digits]. destruct prev; [discriminate|]. intros [= _ _ <-] Hrest. exact Hrest. }
  cbn [scan_digits].
  destruct (is_digit c) eqn:Hd.
  - intros Hscan Hrest. cbn [int_chars]. rewrite (IH _ _ _ _ _ _ Hscan Hrest), andb_true_r.
    unfold int_char. rewrite Hd, !orb_true_r. reflexivity.
  - destruct (Ascii.eqb c "_") eqn:Hu.
    + destruct prev; [discriminate|].
      intros Hscan Hrest. cbn [int_chars]. rewrite (IH _ _ _ _ _ _ Hscan Hrest), andb_true_r.
      unfold int_char. rewrite Hu, !orb_true_r. reflexivity.
    + destruct prev; [discriminate|]. intros [= _ _ <-] Hrest. exact Hrest.
Qed.

(** Whatever [int] accepts consists of the characters of a literal. *)
Lemma py_int_chars (s : string) (n : Z) :
  py_int s = Some n → int_chars s = true.
Proof.
  unfold py_int, int_literal. intros Hint. apply skip_spaces_chars.
  assert (∀ (neg : bool) (t : string),
            match int_unsigned neg t with IntValue n => Some n | _ => None end = Some n →
            int_chars t = true) as Hrun.
  { intros neg t. unfold int_unsigned.
    destruct (scan_digits true 0 0 t) as [[[acc digits] rest]|] eqn:Hscan; [|discriminate].
    destruct (int_max_str_digits <? digits)%nat; [discriminate|].
    destruct (skip_spaces rest) eqn:Hrest; [|discriminate].
    intros _. eapply scan_digits_chars; [exact Hscan|].
    apply skip_spaces_chars. rewrite Hrest. reflexivity. }
  destruct (skip_spaces s) as [|c s'] eqn:Hs; [discriminate|].
  destruct (Ascii.eqb c "+") eqn:Hp; [|destruct (Ascii.eqb c "-") eqn:Hm].
  - cbn [int_chars]. rewrite (Hrun false s' Hint), andb_true_r.
    unfold int_char. rewrite Hp, !orb_true_r. reflexivity.
  - cbn [int_chars]. rewrite (Hrun true s' Hint), andb_true_r.
    unfold int_char. rewrite Hm, !orb_true_r. reflexivity.
  - apply (Hrun false), Hint.
Qed.

Lemma chars_no_colon (s : string) : int_chars s = true → occurs ":" s = false.
Proof.
  induction s as [|c s IH]; [reflexivity|].
  cbn [int_chars occurs]. intros [Hc Hs]%andb_true_iff.
  rewrite (int_char_colon c Hc), (IH Hs). reflexivity.
Qed.

Lemma chars_ascii (s : string) : int_chars s = true → isascii s = true.
Proof.
  induction s as [|c s IH]; [reflexivity|].
  cbn [int_chars isascii]. intros [Hc Hs]%andb_true_iff.
  rewrite (int_char_ascii c Hc), (IH Hs). reflexivity.
Qed.

Lemma py_int_no_colon (s : string) (n : Z) : py_int s = Some n → occurs ":" s = false.
Proof. intros Hint. eapply chars_no_colon, py_int_chars, Hint. Qed.

(** Text that [py_int] accepts lies in the domain of the model. *)
Lemma py_int_ascii (s : string) (n : Z) : py_int s = Some n → isascii s = true.
Proof. intros Hint. eapply chars_ascii, py_int_chars, Hint. Qed.

Lemma split1_absent (sep : ascii) (s : string) : occurs sep s = false → split1 sep s = [s].
Proof.
  induction s as [|c s IH]; [reflexivity|].
  cbn [occurs split1]. intros [Hc Hs]%orb_false_iff.
  rewrite Hc, (IH Hs). reflexivity.
Qed.

Lemma split1_first (sep : ascii) (a b : string) :
  occurs sep a = false → split1 sep (a +:+ String sep b) = [a; b].
Proof.
  induction a as [|c a IH]; rewrite ?append_empty, ?append_String; cbn [occurs split1].
  - intros _. rewrite Ascii.eqb_refl. reflexivity.
  - intros [Hc Ha]%orb_false_iff. rewrite Hc, (IH Ha). reflexivity.
Qed.

Lemma split_absent (sep : ascii) (s : string) : occurs sep s = false → split sep s = [s].
Proof.
  induction s as [|c s IH]; [reflexivity|].
  cbn [occurs split]. intros [Hc Hs]%orb_false_iff.
  rewrite Hc, (IH Hs). reflexivity.
Qed.

Lemma split_cons (sep : ascii) (a b : string) :
  occurs sep a = false → split sep (a +:+ String sep b) = a :: split sep b.
Proof.
  induction a as [|c a IH]; rewrite ?append_empty, ?append_String; cbn [occurs split].
  - intros _. rewrite Ascii.eqb_refl. reflexivity.
  - intros [Hc Ha]%orb_false_iff. rewrite Hc, (IH Ha). reflexivity.
Qed.

(** Splitting undoes joining when no part holds the separator. *)
Lemma split_join (sep : ascii) (parts : list string) :
  parts ≠ [] →
  Forall (λ p, occurs sep p = false) parts →
  split sep (join (String sep EmptyString) parts) = parts.
Proof.
  induction parts as [|p parts IH]; [congruence|].
  intros _ Hall. apply Forall_cons in Hall as [Hp Hall].
  destruct parts as [|p' parts].
  - cbn [join]. apply split_absent, Hp.
  - change (join (String sep EmptyString) (p :: p' :: parts))
      with (p +:+ String sep (join (String sep EmptyString) (p' :: parts))).
    rewrite (split_cons _ _ _ Hp), IH; [reflexivity | discriminate | exact Hall].
Qed.

(** C10: for a reindex item ['N'] or ['N:f1,f2,...'] in ASCII whose [N]
    parses as the integer [n], [to_spec] returns [(n,)], respectively
    [(n, F1, F2, ...)] with every format name in upper case.  The item is
    cut at its first colon only: the format names may hold colons (but,
    being the parts between commas, no comma).  What [int] accepts is
    ASCII in this model, so only the format names need the hypothesis. *)
Theorem C10_to_spec (N : string) (n : Z) (fmts : list string) :
  py_int N = Some n →
  Forall (λ f, isascii f = true) fmts →
  Forall (λ f, occurs "," f = false) fmts →
  to_spec N = Ret [PInt n] ∧
  (fmts ≠ [] →
   to_spec (N +:+ ":" +:+ join "," fmts) = Ret (PInt n :: map (λ f, PStr (upper f)) fmts)).
Proof.
  intros Hint _ Hfmts. pose proof (py_int_no_colon N n Hint) as Hcolon. split.
  - unfold to_spec. rewrite (split1_absent _ _ Hcolon). cbn [hd length Nat.eqb].
    rewrite Hint. reflexivity.
  - intros Hne. unfold to_spec.
    change (N +:+ ":" +:+ join "," fmts) with (N +:+ String ":" (join "," fmts)).
    rewrite (split1_first _ _ _ Hcolon). cbn [hd length Nat.eqb nth].
    rewrite Hint, (split_join "," fmts Hne Hfmts). reflexivity.
Qed.

(** ** The memoized tracker *)









(** ** The completion waiter *)

Lemma tracker_updates_app (a b : list effect) :
  tracker_updates (a ++ b) = tracker_updates a ++ tracker_updates b.
Proof.
  induction a as [|e a IH]; [reflexivity|].
  destruct e; cbn; rewrite IH; reflexivity.
Qed.

Lemma db_calls_app (a b : list effect) : db_calls (a ++ b) = db_calls a ++ db_calls b.
Proof.
  induction a as [|e a IH]; [reflexivity|].
  destruct e; cbn; rewrite IH; reflexivity.
Qed.

Lemma delivered_app (a b : list act) : delivered (a ++ b) = delivered a ++ delivered b.
Proof.
  induction a as [|x a IH]; [reflexivity|].
  destruct x as [[lib l t|lib k]| |]; cbn; rewrite IH; reflexivity.
Qed.

Lemma waiter_steps_app (a b : list act) :
  waiter_steps (a ++ b) = (waiter_steps a + waiter_steps b)%nat.
Proof.
  induction a as [|x a IH]; [reflexivity|].
  destruct x; cbn; rewrite IH; reflexivity.
Qed.

Lemma exec_app (speed : string) (a b : list act) s :
  exec gettext speed (a ++ b) s = exec gettext speed b (exec gettext speed a s).
Proof. apply fold_left_app. Qed.

(** What the listener's update does to the world. *)
Lemma update_effect w (l t : Z) :
  w_db (run_in (update_indexing_progress l t) w) = w_db w ∧
  tracker_updates (w_trace (run_in (update_indexing_progress l t) w))
    = tracker_updates (w_trace w) ++ [(l, t)] ∧
  db_calls (w_trace (run_in (update_indexing_progress l t) w)) = db_calls (w_trace w).
Proof.
  unfold update_indexing_progress, indexing_progress, obj_modify. run_m.
  destruct (w_cache w) as [o|] eqn:Hc; run_m; rewrite ?Hc, Nat.eqb_refl; run_m;
    rewrite !tracker_updates_app, !db_calls_app; cbn;
    rewrite ?app_nil_r; repeat split; reflexivity.
Qed.

(** [show_progress] returns, and touches neither the database nor the
    tracker's counts. *)
Lemma show_progress_spec w (l t : Z) :
  ∃ w', show_progress gettext l t w = (Ret (), w') ∧
        w_db w' = w_db w ∧
        tracker_updates (w_trace w') = tracker_updates (w_trace w) ∧
        db_calls (w_trace w') = db_calls (w_trace w).
Proof.
  unfold show_progress, indexing_progress_time_left, indexing_progress. run_m.
  destruct (w_cache w) as [o|] eqn:Hc; run_m;
    (eexists; split; [reflexivity|]); run_m;
    rewrite !tracker_updates_app, !db_calls_app; cbn;
    rewrite ?app_nil_r; repeat split; reflexivity.
Qed.

(** Lines 120-125: the loop is entered exactly when the remaining count
    read from the database is at least 1. *)
Lemma read_start_spec (speed : string) w :
  let db' := if String.eqb speed EmptyString then w_db w
             else set_fts_speed (String.eqb speed "slow") (w_db w) in
  ∃ w', read_start gettext speed w
          = (Ret (negb (fst (fts_indexing_progress db') <? 1)%Z), w') ∧
        w_db w' = db' ∧
        tracker_updates (w_trace w') = tracker_updates (w_trace w) ∧
        db_calls (w_trace w')
          = db_calls (w_trace w)
            ++ (if String.eqb speed EmptyString then []
                else [c_set_fts_speed (String.eqb speed "slow")])
            ++ [c_fts_indexing_progress].
Proof.
  cbv zeta. unfold read_start. run_m.
  destruct (String.eqb speed EmptyString) eqn:Hs; run_m.
  - destruct (fts_indexing_progress (w_db w)) as [l t] eqn:Hp; run_m.
    destruct (l <? 1)%Z eqn:Hl; run_m.
    + eexists; split; [reflexivity|]. run_m.
      rewrite !tracker_updates_app, !db_calls_app. cbn. rewrite ?app_nil_r.
      repeat split; reflexivity.
    + destruct (show_progress_spec (emit [EDb c_fts_indexing_progress] w) l t)
        as (w' & Hsp & Hdb & Hup & Hcalls).
      rewrite Hsp. run_m. exists w'. split; [reflexivity|].
      rewrite Hdb, Hup, Hcalls. run_m.
      rewrite !tracker_updates_app, !db_calls_app. cbn. rewrite ?app_nil_r.
      repeat split; reflexivity.
  - destruct (fts_indexing_progress (set_fts_speed (String.eqb speed "slow") (w_db w)))
      as [l t] eqn:Hp; run_m.
    destruct (l <? 1)%Z eqn:Hl; run_m.
    + eexists; split; [reflexivity|]. run_m.
      rewrite !tracker_updates_app, !db_calls_app. cbn. rewrite ?app_nil_r.
      rewrite <- !app_assoc. repeat split; reflexivity.
    + destruct (show_progress_spec
                  (emit [EDb c_fts_indexing_progress]
                     (emit [EDb (c_set_fts_speed (String.eqb speed "slow"))]
                        (with_db (set_fts_speed (String.eqb speed "slow")) w))) l t)
        as (w' & Hsp & Hdb & Hup & Hcalls).
      rewrite Hsp. run_m. exists w'. split; [reflexivity|].
      rewrite Hdb, Hup, Hcalls. run_m.
      rewrite !tracker_updates_app, !db_calls_app. cbn. rewrite ?app_nil_r.
      rewrite <- !app_assoc. repeat split; reflexivity.
Qed.

Lemma dispatch_other (lib : string) (k : nat) s : dispatch (OtherEvent lib k) s = s.
Proof. unfold dispatch. destruct (bool_decide _); reflexivity. Qed.

Lemma dispatch_progress (lib : string) (l t : Z) s :
  CbListen ∈ registered (w_db (wt_world s)) →
  dispatch (IndexingProgressChanged lib l t) s
    = mk_waiter (run_in (update_indexing_progress l t) (wt_world s))
                (wt_queue s ++ [(l, t)]) (wt_pc s) (wt_consumed s).
Proof. intros Hreg. unfold dispatch. rewrite (bool_decide_eq_true_2 _ Hreg). reflexivity. Qed.

(** A delivery moves neither the waiting thread nor the database. *)
Lemma dispatch_frame (ev : event) s :
  wt_pc (dispatch ev s) = wt_pc s ∧
  wt_consumed (dispatch ev s) = wt_consumed s ∧
  w_db (wt_world (dispatch ev s)) = w_db (wt_world s) ∧
  db_calls (w_trace (wt_world (dispatch ev s))) = db_calls (w_trace (wt_world s)).
Proof.
  unfold dispatch. destruct (bool_decide _); [|repeat split; reflexivity].
  destruct ev as [lib l t|lib k]; [|repeat split; reflexivity].
  cbn [listen wt_pc wt_consumed wt_world].
  destruct (update_effect (wt_world s) l t) as (Hdb & _ & Hcalls).
  repeat split; assumption.
Qed.

(** The listener stays registered, and the tracker receives one update
    for each progress event delivered, whatever else the threads do. *)
Lemma forward_step (speed : string) (a : act) s :
  CbListen ∈ registered (w_db (wt_world s)) →
  CbListen ∈ registered (w_db (wt_world (apply_act gettext speed s a))) ∧
  tracker_updates (w_trace (wt_world (apply_act gettext speed s a)))
    = tracker_updates (w_trace (wt_world s)) ++ delivered [a].
Proof.
  intros Hreg. destruct a as [[lib l t|lib k]| |]; cbn [apply_act delivered].
  - rewrite (dispatch_progress lib l t s Hreg). cbn [wt_world].
    destruct (update_effect (wt_world s) l t) as (Hdb & Hup & _).
    rewrite Hdb, Hup. split; [exact Hreg | reflexivity].
  - rewrite dispatch_other, app_nil_r. split; [exact Hreg | reflexivity].
  - rewrite app_nil_r. unfold waiter_step. destruct (wt_pc s).
    + cbn [wt_world]. run_m. rewrite tracker_updates_app, app_nil_r.
      split; [apply registered_add_listener | reflexivity].
    + destruct (read_start_spec speed (wt_world s)) as (w' & Hrs & Hdb & Hup & _).
      rewrite Hrs.
      assert (CbListen ∈ registered (w_db w')) as Hreg'.
      { rewrite Hdb. destruct (String.eqb speed EmptyString); [exact Hreg|].
        rewrite registered_set_fts_speed. exact Hreg. }
      destruct (negb _); cbn [wt_world]; split; assumption.
    + destruct (wt_queue s) as [|[l t] q']; [split; [exact Hreg | reflexivity]|].
      destruct (l <? 1)%Z; cbn [wt_world].
      * run_m. rewrite tracker_updates_app, app_nil_r. split; [exact Hreg | reflexivity].
      * destruct (show_progress_spec (wt_world s) l t) as (w' & Hsp & Hdb & Hup & _).
        unfold run_in. rewrite Hsp. cbn [snd]. rewrite Hdb, Hup.
        split; [exact Hreg | reflexivity].
    + split; [exact Hreg | reflexivity].
    + split; [exact Hreg | reflexivity].
  - rewrite app_nil_r. unfold interrupt.
    destruct (wt_pc s); cbn [wt_world]; split; first [exact Hreg | reflexivity].
Qed.

Lemma forward_exec (speed : string) (sched : list act) :
  ∀ s, CbListen ∈ registered (w_db (wt_world s)) →
       tracker_updates (w_trace (wt_world (exec gettext speed sched s)))
         = tracker_updates (w_trace (wt_world s)) ++ delivered sched.
Proof.
  induction sched as [|a sched IH]; intros s Hreg.
  - cbn. rewrite app_nil_r. reflexivity.
  - cbn [exec fold_left]. destruct (forward_step speed a s Hreg) as [Hreg' Hup].
    change (a :: sched) with ([a] ++ sched). rewrite delivered_app, app_assoc, <- Hup.
    apply IH, Hreg'.
Qed.

Lemma waiter_steps_repeat (k : nat) : waiter_steps (repeat WaiterStep k) = k.
Proof. induction k as [|k IH]; [reflexivity | cbn; rewrite IH; reflexivity]. Qed.

Lemma delivered_repeat (k : nat) : delivered (repeat WaiterStep k) = [].
Proof. induction k as [|k IH]; [reflexivity | exact IH]. Qed.

Lemma no_interrupt_repeat (k : nat) : Interrupt ∉ repeat WaiterStep k.
Proof.
  induction k as [|k IH]; cbn; intros Hin.
  - inversion Hin.
  - apply elem_of_cons in Hin as [Hin|Hin]; [discriminate | exact (IH Hin)].
Qed.

Lemma reach_inv_frame (w0 : World DB) (speed : string) s s' :
  wt_pc s' = wt_pc s →
  wt_consumed s' = wt_consumed s →
  w_db (wt_world s') = w_db (wt_world s) →
  db_calls (w_trace (wt_world s')) = db_calls (w_trace (wt_world s)) →
  reach_inv w0 speed s → reach_inv w0 speed s'.
Proof.
  unfold reach_inv. intros -> -> -> ->. exact id.
Qed.

Lemma db_at_read_unfold (speed : string) (db : DB) :
  (if String.eqb speed EmptyString then add_listener CbListen db
   else set_fts_speed (String.eqb speed "slow") (add_listener CbListen db))
  = db_at_read speed db.
Proof. reflexivity. Qed.

Lemma calls_to_read_unfold (speed : string) (calls : list db_call) :
  (calls ++ [c_add_listener CbListen])
    ++ (if String.eqb speed EmptyString then []
        else [c_set_fts_speed (String.eqb speed "slow")])
    ++ [c_fts_indexing_progress]
  = calls ++ calls_to_read speed.
Proof.
  unfold calls_to_read. destruct (String.eqb speed EmptyString);
    rewrite <- !app_assoc; reflexivity.
Qed.

(** Every act of every thread preserves [reach_inv]. *)
Lemma reach_step (w0 : World DB) (speed : string) (a : act) s :
  reach_inv w0 speed s → reach_inv w0 speed (apply_act gettext speed s a).
Proof.
  intros Hinv. destruct a as [ev| |]; cbn [apply_act].
  - destruct (dispatch_frame ev s) as (Hpc & Hcons & Hdb & Hcalls).
    eapply reach_inv_frame; eassumption.
  - unfold waiter_step. unfold reach_inv in Hinv.
    destruct (wt_pc s) eqn:Hpc.
    + destruct Hinv as (Hdb & Hcalls & Hcons).
      unfold reach_inv. cbn [wt_pc wt_world wt_consumed]. run_m.
      rewrite Hdb, db_calls_app, Hcalls. close_inv.
    + destruct Hinv as (Hdb & Hcalls & Hcons).
      destruct (read_start_spec speed (wt_world s)) as (w' & Hrs & Hdb' & _ & Hcalls').
      rewrite Hrs. rewrite Hdb, db_at_read_unfold in Hdb'.
      rewrite Hcalls, calls_to_read_unfold in Hcalls'.
      rewrite Hdb, db_at_read_unfold.
      fold (starting_left speed w0).
      destruct (starting_left speed w0 <? 1)%Z eqn:Hl; cbn [negb];
        unfold reach_inv; cbn [wt_pc wt_world wt_consumed].
      * close_inv.
      * close_inv.
    + destruct Hinv as (Hdb & Hcalls & Hstart).
      destruct (wt_queue s) as [|[l t] q'] eqn:Hq.
      * unfold reach_inv. rewrite Hpc. close_inv.
      * destruct (l <? 1)%Z; unfold reach_inv; cbn [wt_pc wt_world wt_consumed].
        -- run_m. rewrite db_calls_app, app_nil_r.
           close_inv.
        -- destruct (show_progress_spec (wt_world s) l t) as (w' & Hsp & Hdb' & _ & Hcalls').
           unfold run_in. rewrite Hsp. cbn [snd]. rewrite Hdb', Hcalls'.
           close_inv.
    + unfold reach_inv. rewrite Hpc. exact Hinv.
    + unfold reach_inv. rewrite Hpc. exact Hinv.
  - unfold interrupt. unfold reach_inv in Hinv.
    destruct (wt_pc s) eqn:Hpc; unfold reach_inv; cbn [wt_pc wt_world wt_consumed];
      rewrite ?Hpc; intuition.
Qed.

Lemma reach_exec (w0 : World DB) (speed : string) (sched : list act) :
  ∀ s, reach_inv w0 speed s → reach_inv w0 speed (exec gettext speed sched s).
Proof.
  induction sched as [|a sched IH]; intros s Hinv; [exact Hinv|].
  cbn [exec fold_left]. apply IH, reach_step, Hinv.
Qed.

Lemma reach_init (w0 : World DB) (speed : string) : reach_inv w0 speed (wait_init w0).
Proof. unfold reach_inv, wait_init. cbn. repeat split; reflexivity. Qed.

(** With a starting count below 1 and no interrupt, where the waiter
    stands is a function of the number of steps it has taken. *)
Lemma pc_by_steps (w0 : World DB) (speed : string) (sched : list act) :
  (starting_left speed w0 < 1)%Z →
  Interrupt ∉ sched →
  wt_pc (exec gettext speed sched (wait_init w0))
    = match waiter_steps sched with
      | O => WStart
      | S O => WRegistered
      | _ => WReturned
      end.
Proof.
  intros Hstart. induction sched as [|a sched IH] using rev_ind; intros Hno; [reflexivity|].
  rewrite exec_app, waiter_steps_app. cbn [exec fold_left].
  assert (Interrupt ∉ sched) as Hno' by (intros Hin; apply Hno, elem_of_app; left; exact Hin).
  specialize (IH Hno').
  pose proof (reach_exec w0 speed sched _ (reach_init w0 speed)) as Hinv.
  set (s := exec gettext speed sched (wait_init w0)) in *.
  destruct a as [ev| |]; cbn [apply_act waiter_steps].
  - destruct (dispatch_frame ev s) as (Hpc & _). rewrite Hpc, IH, Nat.add_0_r. reflexivity.
  - unfold waiter_step. unfold reach_inv in Hinv. rewrite IH in *.
    destruct (waiter_steps sched) as [|[|n]]; cbn [Nat.add wt_pc].
    + reflexivity.
    + destruct Hinv as (Hdb & _ & _).
      destruct (read_start_spec speed (wt_world s)) as (w' & Hrs & _).
      rewrite Hrs. rewrite Hdb, db_at_read_unfold. fold (starting_left speed w0).
      assert ((starting_left speed w0 <? 1)%Z = true) as -> by lia.
      reflexivity.
    + exact IH.
  - exfalso. apply Hno, elem_of_app. right. apply list_elem_of_singleton. reflexivity.
Qed.

(** C2: for every database handle whose [fts_indexing_progress()] reports
    a starting remaining count below 1, [local_wait_for_completion]
    returns at once: whatever the other threads do, and whatever they have
    put in the queue, the waiter never reaches [q.get()], dequeues
    nothing, and (if it is not interrupted) has returned as soon as it has
    taken its second step; so the call returns. *)
Theorem C2_already_complete (w : World DB) (speed : string) (sched : list act) :
  (starting_left speed w < 1)%Z →
  let s := exec gettext speed sched (wait_init w) in
  wt_consumed s = [] ∧
  wt_pc s ≠ WLoop ∧
  (Interrupt ∉ sched → (2 ≤ waiter_steps sched)%nat → wt_pc s = WReturned) ∧
  (Interrupt ∉ w_sched w → fst (local_wait_for_completion gettext speed w) = Ret ()).
Proof.
  intros Hstart s.
  pose proof (reach_exec w speed sched _ (reach_init w speed)) as Hinv.
  fold s in Hinv. unfold reach_inv in Hinv. split; [|split; [|split]].
  - destruct (wt_pc s); intuition lia.
  - intros Hpc. rewrite Hpc in Hinv. lia.
  - intros Hno Hsteps. unfold s. rewrite (pc_by_steps w speed sched Hstart Hno).
    destruct (waiter_steps sched) as [|[|n]]; [lia | lia | reflexivity].
  - intros Hno. unfold local_wait_for_completion. cbv zeta.
    set (s1 := exec gettext speed (w_sched w) (wait_init (with_sched [] w))).
    unfold s1 at 2.
    rewrite <- exec_app.
    rewrite (pc_by_steps (with_sched [] w) speed
               (w_sched w ++ repeat WaiterStep (2 + length (wt_queue s1))) Hstart).
    + rewrite waiter_steps_app, waiter_steps_repeat.
      destruct (waiter_steps (w_sched w) + (2 + length (wt_queue s1)))%nat as [|[|n]] eqn:Hn;
        [lia | lia | reflexivity].
    + intros [Hin|Hin]%elem_of_app; [exact (Hno Hin) | exact (no_interrupt_repeat _ Hin)].
Qed.


(** In a list that ends with its first element outside [P], an element
    outside [P] is the last one. *)
Lemma first_terminal {A : Type} (P : A → Prop) (c : list A) (e : A) (q pre : list A) (last : A) :
  Forall P pre → ¬ P e → c ++ e :: q = pre ++ [last] →
  c = pre ∧ e = last ∧ q = [].
Proof.
  revert pre. induction c as [|x c IH]; intros [|p pre] Hpre He Heq; cbn in Heq.
  - injection Heq as -> ->. repeat split.
  - injection Heq as -> _. apply Forall_cons in Hpre as [Hp _]. contradiction.
  - injection Heq as _ Heq. destruct c; discriminate.
  - injection Heq as -> Heq. apply Forall_cons in Hpre as [_ Hpre].
    destruct (IH pre Hpre He Heq) as (-> & -> & ->). repeat split.
Qed.

Section Waiting.

Variables (w0 : World DB) (speed : string) (pre : list (Z * Z)) (last : Z * Z).
Hypothesis start_positive : (1 ≤ starting_left speed w0)%Z.
Hypothesis pre_positive : Forall (λ e, (1 ≤ fst e)%Z) pre.
Hypothesis last_terminal : (fst last < 1)%Z.

(** The state right after [db.add_listener(listen)]. *)
Lemma wait_inv_registered :
  wait_inv w0 pre last [] (waiter_step gettext speed (wait_init w0)).
Proof.
  unfold wait_inv, waiter_step, wait_init. cbn [wt_pc wt_world wt_consumed wt_queue]. run_m.
  rewrite tracker_updates_app. cbn. rewrite !app_nil_r.
  split; [apply registered_add_listener | repeat split].
Qed.

(** The waiter is never stuck at [q.get()] once everything has been
    delivered: the terminal event is still in the queue. *)
Lemma queue_not_empty s :
  wait_inv w0 pre last (pre ++ [last]) s → wt_pc s = WLoop → wt_queue s ≠ [].
Proof.
  unfold wait_inv. intros (_ & _ & Hpc) Hloop Hq. rewrite Hloop in Hpc.
  destruct Hpc as [Heq Hall]. rewrite Hq, app_nil_r in Heq. rewrite Heq in Hall.
  apply Forall_app in Hall as [_ Hlast]. apply Forall_cons in Hlast as [Hlast _]. lia.
Qed.

(** Every act but an interrupt preserves [wait_inv], the delivered events
    growing by what the act delivers. *)
Lemma wait_step (a : act) (d : list (Z * Z)) s :
  a ≠ Interrupt →
  (∃ rest, d ++ delivered [a] ++ rest = pre ++ [last]) →
  wait_inv w0 pre last d s →
  wait_inv w0 pre last (d ++ delivered [a]) (apply_act gettext speed s a).
Proof.
  intros Hna [rest Hrest] (Hreg & Hup & Hpc).
  destruct a as [[lib l t|lib k]| |]; cbn [apply_act delivered] in *.
  - rewrite (dispatch_progress lib l t s Hreg).
    destruct (update_effect (wt_world s) l t) as (Hdb & Hup' & _).
    unfold wait_inv. cbn [wt_pc wt_world wt_consumed wt_queue].
    rewrite Hdb, Hup', Hup, <- app_assoc.
    split; [exact Hreg | split; [reflexivity|]].
    destruct (wt_pc s).
    + contradiction.
    + destruct Hpc as (Hdb0 & Hcons & Hq). rewrite Hq. close_inv.
    + destruct Hpc as (Hq & Hall). rewrite app_assoc, Hq. close_inv.
    + destruct Hpc as (_ & _ & Hd). exfalso.
      apply (f_equal length) in Hrest. rewrite Hd, !length_app in Hrest. cbn in Hrest. lia.
    + contradiction.
  - rewrite dispatch_other, app_nil_r. split; [exact Hreg | split; assumption].
  - rewrite app_nil_r. cbn [app] in Hrest. unfold waiter_step.
    destruct (wt_pc s) eqn:Hpcs.
    + contradiction.
    + destruct Hpc as (Hdb0 & Hcons & Hq).
      destruct (read_start_spec speed (wt_world s)) as (w' & Hrs & Hdb' & Hup' & _).
      rewrite Hrs. rewrite Hdb0, db_at_read_unfold in Hdb'.
      rewrite Hdb0, db_at_read_unfold. fold (starting_left speed w0).
      assert ((starting_left speed w0 <? 1)%Z = false) as -> by lia. cbn [negb].
      unfold wait_inv. cbn [wt_pc wt_world wt_consumed wt_queue].
      rewrite Hdb', Hup', Hup, Hcons, Hq.
      split; [|repeat split; constructor].
      unfold db_at_read. destruct (String.eqb speed EmptyString).
      * apply registered_add_listener.
      * rewrite registered_set_fts_speed. apply registered_add_listener.
    + destruct Hpc as (Hq & Hall).
      destruct (wt_queue s) as [|[l t] q'] eqn:Hqs.
      * unfold wait_inv. rewrite Hpcs, Hqs. close_inv.
      * destruct (l <? 1)%Z eqn:Hl.
        -- rewrite <- Hq, <- app_assoc in Hrest. cbn [app] in Hrest.
           assert (¬ (1 ≤ fst (l, t))%Z) as Hnot by (cbn; lia).
           destruct (first_terminal (λ e, (1 ≤ fst e)%Z) _ _ _ _ _ pre_positive
                       Hnot Hrest) as (Hc & He & Hnil).
           apply app_eq_nil in Hnil as [-> ->].
           unfold wait_inv. cbn [wt_pc wt_world wt_consumed wt_queue]. run_m.
           rewrite tracker_updates_app, app_nil_r, Hup.
           rewrite <- Hq, Hc, He. split; [exact Hreg | repeat split].
        -- destruct (show_progress_spec (wt_world s) l t) as (w' & Hsp & Hdb' & Hup' & _).
           unfold run_in. rewrite Hsp. cbn [snd].
           unfold wait_inv. cbn [wt_pc wt_world wt_consumed wt_queue].
           rewrite Hdb', Hup', Hup, <- app_assoc. cbn [app].
           split; [exact Hreg | split; [reflexivity | split; [exact Hq|]]].
           apply Forall_app. split; [exact Hall|].
           apply Forall_cons. split; [cbn; lia | constructor].
    + unfold wait_inv. rewrite Hpcs. split; [exact Hreg | split; [exact Hup | exact Hpc]].
    + contradiction.
  - contradiction.
Qed.

Lemma wait_exec (sched : list act) :
  ∀ (d : list (Z * Z)) s,
    Interrupt ∉ sched →
    (∃ rest, d ++ delivered sched ++ rest = pre ++ [last]) →
    wait_inv w0 pre last d s →
    wait_inv w0 pre last (d ++ delivered sched) (exec gettext speed sched s).
Proof.
  induction sched as [|a sched IH]; intros d s Hno [rest Hrest] Hinv.
  - cbn. rewrite app_nil_r. exact Hinv.
  - cbn [exec fold_left].
    change (a :: sched) with ([a] ++ sched) in Hrest |- *.
    rewrite delivered_app in Hrest |- *. rewrite <- app_assoc in Hrest.
    rewrite app_assoc. apply IH.
    + intros Hin. apply Hno. right. exact Hin.
    + exists rest. rewrite <- app_assoc. exact Hrest.
    + apply wait_step; [| eexists; exact Hrest | exact Hinv].
      intros ->. apply Hno. left.
Qed.

(** Once everything is delivered each step of the waiter brings it closer
    to its return. *)
Lemma waiter_step_progress s :
  wait_inv w0 pre last (pre ++ [last]) s →
  (steps_to_return (waiter_step gettext speed s) ≤ pred (steps_to_return s))%nat.
Proof.
  intros Hinv. pose proof (queue_not_empty s Hinv) as Hne.
  destruct Hinv as (_ & _ & Hpc).
  unfold waiter_step, steps_to_return in *. destruct (wt_pc s) eqn:Hpcs.
  - contradiction.
  - destruct Hpc as (Hdb0 & _ & _).
    destruct (read_start_spec speed (wt_world s)) as (w' & Hrs & _).
    rewrite Hrs. rewrite Hdb0, db_at_read_unfold. fold (starting_left speed w0).
    assert ((starting_left speed w0 <? 1)%Z = false) as -> by lia.
    cbn. lia.
  - destruct (wt_queue s) as [|[l t] q'] eqn:Hqs; [exfalso; apply Hne; reflexivity|].
    destruct (l <? 1)%Z; cbn; lia.
  - rewrite Hpcs. lia.
  - contradiction.
Qed.

Lemma drain (k : nat) :
  ∀ s, wait_inv w0 pre last (pre ++ [last]) s →
       (steps_to_return s ≤ k)%nat →
       wt_pc (exec gettext speed (repeat WaiterStep k) s) = WReturned.
Proof.
  induction k as [|k IH]; intros s Hinv Hk.
  - cbn. pose proof (queue_not_empty s Hinv) as Hne.
    destruct Hinv as (_ & _ & Hpc). unfold steps_to_return in Hk.
    destruct (wt_pc s); try contradiction; try reflexivity; [lia|].
    exfalso. apply Hne; [reflexivity|]. apply length_zero_iff_nil. lia.
  - cbn [repeat exec fold_left apply_act]. apply IH.
    + pose proof (wait_step WaiterStep (pre ++ [last]) s) as Hstep.
      cbn [delivered apply_act] in Hstep. rewrite app_nil_r in Hstep.
      apply Hstep; [discriminate | exists []; rewrite !app_nil_r; reflexivity | exact Hinv].
    + pose proof (waiter_step_progress s Hinv). lia.
Qed.

(** The waiter, left to run after the deliveries, returns. *)
Lemma wait_returns (sched : list act) (k : nat) :
  Interrupt ∉ sched →
  delivered sched = pre ++ [last] →
  let s := exec gettext speed sched (waiter_step gettext speed (wait_init w0)) in
  wait_inv w0 pre last (pre ++ [last]) s ∧
  ((S (length (wt_queue s)) ≤ k)%nat →
   wt_pc (exec gettext speed (repeat WaiterStep k) s) = WReturned).
Proof.
  intros Hno Hdel s.
  assert (wait_inv w0 pre last (pre ++ [last]) s) as Hinv.
  { pose proof (wait_exec sched [] (waiter_step gettext speed (wait_init w0)) Hno) as Hex.
    rewrite Hdel in Hex. cbn [app] in Hex. apply Hex.
    - exists []. apply app_nil_r.
    - apply wait_inv_registered. }
  split; [exact Hinv|]. intros Hk. apply (drain k s Hinv).
  unfold steps_to_return. destruct (wt_pc s); lia.
Qed.

End Waiting.

(** After its return nothing moves the waiter: it dequeues no more. *)
Lemma returned_stable (speed : string) (post : list act) :
  ∀ s, wt_pc s = WReturned →
       wt_pc (exec gettext speed post s) = WReturned ∧
       wt_consumed (exec gettext speed post s) = wt_consumed s.
Proof.
  induction post as [|a post IH]; intros s Hpc; [split; [exact Hpc | reflexivity]|].
  cbn [exec fold_left].
  assert (wt_pc (apply_act gettext speed s a) = WReturned ∧
          wt_consumed (apply_act gettext speed s a) = wt_consumed s) as [Hpc' Hcons'].
  { destruct a as [ev| |]; cbn [apply_act].
    - destruct (dispatch_frame ev s) as (H1 & H2 & _). rewrite H1, H2. split; [exact Hpc | reflexivity].
    - unfold waiter_step. rewrite Hpc. split; [exact Hpc | reflexivity].
    - unfold interrupt. rewrite Hpc. split; [exact Hpc | reflexivity]. }
  destruct (IH _ Hpc') as [H1 H2]. split; [exact H1 | rewrite <- Hcons'; exact H2].
Qed.

(** C1: let the listener be registered.  However the deliveries of the
    other threads interleave with the steps of the waiter, the tracker
    receives through [update_indexing_progress] exactly the progress
    events delivered, in the order of delivery.  If moreover the loop is
    entered (the starting count is at least 1), nobody interrupts, and the
    events delivered are [pre ++ [last]], [last] being the first with a
    remaining count below 1, then the waiter has dequeued a prefix of them
    and has returned exactly if it has dequeued them all; left to run, it
    returns within [length pre + 2] steps having dequeued each event once,
    in order, the terminal one last; after that no act makes it dequeue
    again; and the call [local_wait_for_completion] returns. *)
Theorem C1_events_forwarded_then_return (w : World DB) (speed : string) (sched : list act) :
  let s := exec gettext speed sched (waiter_step gettext speed (wait_init w)) in
  tracker_updates (w_trace (wt_world s)) = tracker_updates (w_trace w) ++ delivered sched ∧
  ∀ (pre : list (Z * Z)) (last : Z * Z),
    (1 ≤ starting_left speed w)%Z →
    Forall (λ e, (1 ≤ fst e)%Z) pre →
    (fst last < 1)%Z →
    Interrupt ∉ sched →
    delivered sched = pre ++ [last] →
    (∃ rest, wt_consumed s ++ rest = pre ++ [last]) ∧
    (wt_pc s = WReturned ↔ wt_consumed s = pre ++ [last]) ∧
    (∀ k, (length pre + 2 ≤ k)%nat →
       let s' := exec gettext speed (repeat WaiterStep k) s in
       wt_pc s' = WReturned ∧
       wt_consumed s' = pre ++ [last] ∧
       wt_queue s' = [] ∧
       tracker_updates (w_trace (wt_world s')) = tracker_updates (w_trace w) ++ pre ++ [last] ∧
       ∀ post, wt_pc (exec gettext speed post s') = WReturned ∧
               wt_consumed (exec gettext speed post s') = pre ++ [last]) ∧
    (w_sched w = WaiterStep :: sched →
     fst (local_wait_for_completion gettext speed w) = Ret ()).
Proof.
  intros s. split.
  { unfold s. rewrite forward_exec.
    - unfold waiter_step, wait_init. cbn [wt_pc wt_world]. run_m.
      rewrite tracker_updates_app, app_nil_r. reflexivity.
    - unfold waiter_step, wait_init. cbn [wt_pc wt_world]. run_m.
      apply registered_add_listener. }
  intros pre last Hstart Hpre Hlast Hno Hdel.
  destruct (wait_returns w speed pre last Hstart Hpre Hlast sched (length pre + 2) Hno Hdel)
    as [Hinv _]. fold s in Hinv.
  split; [|split; [|split]].
  - destruct Hinv as (_ & _ & Hpc). destruct (wt_pc s); try contradiction.
    + destruct Hpc as (_ & -> & _). eexists; reflexivity.
    + destruct Hpc as (Hq & _). exists (wt_queue s). exact Hq.
    + destruct Hpc as (-> & _). exists []. apply app_nil_r.
  - destruct Hinv as (_ & _ & Hpc). destruct (wt_pc s); try contradiction.
    + destruct Hpc as (_ & -> & _). split; [discriminate|].
      intros Heq. destruct pre; discriminate.
    + destruct Hpc as (_ & Hall). split; [discriminate|].
      intros Heq. rewrite Heq in Hall. apply Forall_app in Hall as [_ Hl].
      apply Forall_cons in Hl as [Hl _]. lia.
    + destruct Hpc as (-> & _). split; reflexivity.
  - intros k Hk s'.
    assert (wait_inv w pre last (pre ++ [last]) s') as Hinv'.
    { pose proof (wait_exec w speed pre last Hstart Hpre (repeat WaiterStep k)
                    (pre ++ [last]) s (no_interrupt_repeat k)) as Hex.
      rewrite delivered_repeat, app_nil_r in Hex. apply Hex; [|exact Hinv].
      exists []. rewrite !app_nil_r. reflexivity. }
    assert (wt_pc s' = WReturned) as Hret.
    { apply (wait_returns w speed pre last Hstart Hpre Hlast sched k Hno Hdel).
      fold s. destruct Hinv as (_ & _ & Hpc).
      destruct (wt_pc s); try contradiction.
      - destruct Hpc as (_ & _ & ->). rewrite length_app. cbn. lia.
      - destruct Hpc as (Hq & _). apply (f_equal length) in Hq.
        rewrite !length_app in Hq. cbn in Hq. lia.
      - destruct Hpc as (_ & -> & _). cbn. lia. }
    destruct Hinv' as (_ & Hup & Hpc). rewrite Hret in Hpc. destruct Hpc as (Hc & Hq & _).
    split; [exact Hret|]. split; [exact Hc|]. split; [exact Hq|]. split; [exact Hup|].
    intros post. destruct (returned_stable speed post s' Hret) as [H1 H2].
    split; [exact H1 | rewrite H2; exact Hc].
  - intros Hsched. unfold local_wait_for_completion. cbv zeta. rewrite Hsched.
    unfold exec. cbn [fold_left apply_act].
    set (s1 := fold_left (apply_act gettext speed) sched
                 (waiter_step gettext speed (wait_init (with_sched [] w)))).
    destruct (wait_returns (with_sched [] w) speed pre last Hstart Hpre Hlast sched
                (2 + length (wt_queue s1)) Hno Hdel) as [_ Hret].
    unfold exec in Hret. fold s1 in Hret. rewrite Hret; [reflexivity | lia].
Qed.

(** ** More on [implementation] *)

Lemma report_progress_eq w :
  report_progress w
    = (Ret (Some (mk_status true (fst (fts_indexing_progress (w_db w)))
                                 (snd (fts_indexing_progress (w_db w))))),
       emit [EDb c_fts_indexing_progress] w).
Proof.
  unfold report_progress. run_m. destruct (fts_indexing_progress (w_db w)); reflexivity.
Qed.

(** The loop over the items: one [reindex_fts_book] call each, in order. *)
Lemma for_each_reindex (items : list tuple) :
  ∀ w, for_each items db_reindex_fts_book w
       = (Ret (), mk_world (reindex_books items (w_db w)) (w_cache w) (w_objects w)
                           (w_trace w ++ map (λ item, EDb (c_reindex_fts_book item)) items)
                           (w_stdin w) (w_excepthook_silenced w) (w_sched w)).
Proof.
  induction items as [|item items IH]; intros w.
  - destruct w. cbn. rewrite app_nil_r. reflexivity.
  - cbn [for_each]. run_m. rewrite IH. unfold emit, with_db, reindex_books. cbn.
    rewrite <- app_assoc. reflexivity.
Qed.

Lemma db_calls_reindex (items : list tuple) :
  db_calls (map (λ item, EDb (c_reindex_fts_book item)) items) = map c_reindex_fts_book items.
Proof. induction items as [|item items IH]; [reflexivity | cbn; rewrite IH; reflexivity]. Qed.

(** What [reindex] does on a library with indexing enabled, by the
    ['items'] entry of its data. *)
Lemma reindex_enabled w (d : gmap string (list tuple)) :
  is_fts_enabled (w_db w) = true →
  implementation gettext "reindex" (Some d) w
    = match d !! "items" with
      | Some (item :: items) =>
          report_progress
            (mk_world (reindex_books (item :: items) (w_db w)) (w_cache w) (w_objects w)
               ((w_trace w ++ [EDb c_is_fts_enabled])
                ++ map (λ item, EDb (c_reindex_fts_book item)) (item :: items))
               (w_stdin w) (w_excepthook_silenced w) (w_sched w))
      | _ => report_progress
               (emit [EDb c_reindex_fts] (with_db reindex_fts (emit [EDb c_is_fts_enabled] w)))
      end.
Proof.
  intros Hen. unfold implementation; cbn [String.eqb Ascii.eqb Bool.eqb]. run_m.
  rewrite Hen. cbn [negb].
  destruct (d !! "items") as [[|item items]|]; cbv beta iota; try reflexivity.
  rewrite for_each_reindex. reflexivity.
Qed.

(** X2: with indexing enabled and a non-empty ['items'] entry, [reindex]
    calls [db.reindex_fts_book] once for each item, in the order of the
    items, never [db.reindex_fts], and then reports the progress the
    database has after these calls. *)
Theorem X2_reindex_calls_each_item w (d : gmap string (list tuple))
    (item : tuple) (items : list tuple) :
  is_fts_enabled (w_db w) = true →
  d !! "items" = Some (item :: items) →
  let db' := reindex_books (item :: items) (w_db w) in
  let r := implementation gettext "reindex" (Some d) w in
  fst r = Ret (Some (mk_status true (fst (fts_indexing_progress db'))
                                    (snd (fts_indexing_progress db')))) ∧
  w_db (snd r) = db' ∧
  db_calls (w_trace (snd r))
    = db_calls (w_trace w)
      ++ c_is_fts_enabled :: map c_reindex_fts_book (item :: items)
      ++ [c_fts_indexing_progress].
Proof.
  intros Hen Hitems db' r. unfold r. rewrite (reindex_enabled w d Hen), Hitems.
  rewrite report_progress_eq. cbn [fst snd w_db emit w_trace].
  split; [reflexivity|]. split; [reflexivity|].
  rewrite !db_calls_app, db_calls_reindex. cbn [db_calls]. rewrite <- !app_assoc. reflexivity.
Qed.

(** X3: with indexing enabled, [reindex] whose data has no ['items'] entry
    or an empty one re-indexes the whole library with a single
    [db.reindex_fts()] and no [reindex_fts_book]; called without data
    ([adata=None]) it raises [AttributeError] after the one query, leaving
    the database as it was. *)
Theorem X3_reindex_whole_library w :
  is_fts_enabled (w_db w) = true →
  (∀ d : gmap string (list tuple),
     d !! "items" = None ∨ d !! "items" = Some [] →
     implementation gettext "reindex" (Some d) w
       = (Ret (Some (mk_status true
                       (fst (fts_indexing_progress (reindex_fts (w_db w))))
                       (snd (fts_indexing_progress (reindex_fts (w_db w)))))),
          emit [EDb c_is_fts_enabled; EDb c_reindex_fts; EDb c_fts_indexing_progress]
               (with_db reindex_fts w))) ∧
  (∃ e, implementation gettext "reindex" None w = (Raise e, emit [EDb c_is_fts_enabled] w) ∧
        exn_class e = AttributeError ∧ suppress_traceback e = false).
Proof.
  intros Hen. split.
  - intros d Hd. rewrite (reindex_enabled w d Hen).
    assert (match d !! "items" with
            | Some (item :: items) => False
            | _ => True
            end) as Hshape by (destruct Hd as [-> | ->]; exact I).
    destruct (d !! "items") as [[|item items]|]; try contradiction;
      rewrite report_progress_eq; cbn [w_db emit with_db]; f_equal; world_eq.
  - unfold implementation; cbn [String.eqb Ascii.eqb Bool.eqb]. run_m.
    rewrite Hen. cbn [negb]. eexists. split; [reflexivity | split; reflexivity].
Qed.

Lemma status_eq w (adata : option (gmap string (list tuple))) :
  implementation gettext "status" adata w
    = if is_fts_enabled (w_db w) then report_progress (emit [EDb c_is_fts_enabled] w)
      else (Ret (Some (mk_status false (-1) (-1))), emit [EDb c_is_fts_enabled] w).
Proof.
  unfold implementation; cbn [String.eqb Ascii.eqb Bool.eqb]. run_m.
  destruct (is_fts_enabled (w_db w)); reflexivity.
Qed.

Lemma enable_eq w (adata : option (gmap string (list tuple))) :
  implementation gettext "enable" adata w
    = report_progress
        (if is_fts_enabled (w_db w) then emit [EDb c_is_fts_enabled] w
         else emit [EDb (c_enable_fts true)]
                   (with_db (enable_fts true) (emit [EDb c_is_fts_enabled] w))).
Proof.
  unfold implementation; cbn [String.eqb Ascii.eqb Bool.eqb]. run_m.
  destruct (is_fts_enabled (w_db w)); reflexivity.
Qed.

Lemma disable_eq w (adata : option (gmap string (list tuple))) :
  implementation gettext "disable" adata w
    = (Ret None,
       if is_fts_enabled (w_db w)
       then emit [EDb (c_enable_fts false)]
                 (with_db (enable_fts false)
                    (run_in reset_indexing_progress (emit [EDb c_is_fts_enabled] w)))
       else emit [EDb c_is_fts_enabled] w).
Proof.
  unfold implementation; cbn [String.eqb Ascii.eqb Bool.eqb]. run_m.
  destruct (is_fts_enabled (w_db w)); [|reflexivity].
  cbv beta iota.
  destruct (reset_indexing_progress (emit [EDb c_is_fts_enabled] w)) as [[[]|e|] w1] eqn:Hr;
    try reflexivity; exfalso;
    revert Hr; unfold reset_indexing_progress, indexing_progress; run_m;
    destruct (w_cache w); run_m; discriminate.
Qed.

(** What the reset does to the world: the tracker only. *)
Lemma reset_effect w :
  w_db (run_in reset_indexing_progress w) = w_db w ∧
  console (run_in reset_indexing_progress w) = console w ∧
  ∃ added, w_trace (run_in reset_indexing_progress w) = w_trace w ++ added ∧
           forallb job_effect added = true ∧ db_calls added = [].
Proof.
  unfold reset_indexing_progress, indexing_progress, obj_modify, console. run_m.
  destruct (w_cache w) as [o|] eqn:Hc; run_m; rewrite ?Hc, Nat.eqb_refl; run_m;
    (split; [reflexivity|]); (split; [reflexivity|]);
    rewrite <- ?app_assoc; eexists; (split; [reflexivity|]); split; reflexivity.
Qed.

Lemma unknown_action_eq w (action : string) (adata : option (gmap string (list tuple))) :
  action ≠ "status" → action ≠ "enable" → action ≠ "disable" → action ≠ "reindex" →
  implementation gettext action adata w = (Ret None, w).
Proof.
  intros H1%String.eqb_neq H2%String.eqb_neq H3%String.eqb_neq H4%String.eqb_neq.
  unfold implementation. rewrite H1, H2, H3, H4. reflexivity.
Qed.

(** X1: whenever [implementation] returns a dictionary that says
    [enabled: True], its ['left'] and ['total'] are the progress of the
    database as the action has left it: for [enable] and [reindex] the
    progress is read after the database has been changed. *)
Theorem X1_reported_progress_is_final w (action : string)
    (adata : option (gmap string (list tuple))) (st : Status) :
  fst (implementation gettext action adata w) = Ret (Some st) →
  enabled st = true →
  (left st, total st) = fts_indexing_progress (w_db (snd (implementation gettext action adata w))).
Proof.
  destruct (String.eqb_spec action "status") as [->|H1].
  { rewrite status_eq. destruct (is_fts_enabled (w_db w)).
    - rewrite report_progress_eq. cbn. intros [= <-] _. cbn.
      destruct (fts_indexing_progress (w_db w)); reflexivity.
    - cbn. intros [= <-]. discriminate. }
  destruct (String.eqb_spec action "enable") as [->|H2].
  { rewrite enable_eq, report_progress_eq. cbn [fst snd]. intros [= <-] _. cbn [left total].
    destruct (is_fts_enabled (w_db w)); cbn [w_db emit with_db];
      symmetry; apply surjective_pairing. }
  destruct (String.eqb_spec action "disable") as [->|H3].
  { rewrite disable_eq. cbn. discriminate. }
  destruct (String.eqb_spec action "reindex") as [->|H4].
  { destruct (is_fts_enabled (w_db w)) eqn:Hen.
    - destruct adata as [d|].
      + rewrite (reindex_enabled w d Hen).
        destruct (d !! "items") as [[|item items]|]; rewrite report_progress_eq;
          cbn [fst snd]; intros [= <-] _; cbn [left total w_db emit with_db];
          symmetry; apply surjective_pairing.
      + unfold implementation; cbn [String.eqb Ascii.eqb Bool.eqb]. run_m.
        rewrite Hen. cbn. discriminate.
    - unfold implementation; cbn [String.eqb Ascii.eqb Bool.eqb]. run_m.
      rewrite Hen. cbn. discriminate. }
  rewrite (unknown_action_eq w action adata H1 H2 H3 H4). cbn. discriminate.
Qed.

(** X4: whatever the action and its data, [implementation] writes nothing
    to the terminal, reads no input, registers no listener and sets no
    indexing speed; and it touches the progress tracker only for
    [disable] on a library with indexing enabled. *)
Theorem X4_implementation_frame w (action : string)
    (adata : option (gmap string (list tuple))) :
  let w' := snd (implementation gettext action adata w) in
  console w' = console w ∧
  (∃ added, w_trace w' = w_trace w ++ added ∧ forallb job_effect added = true) ∧
  (w_cache w' ≠ w_cache w → action = "disable" ∧ is_fts_enabled (w_db w) = true).
Proof.
  cbv zeta.
  destruct (String.eqb_spec action "status") as [->|H1].
  { rewrite status_eq. destruct (is_fts_enabled (w_db w)); rewrite ?report_progress_eq;
      cbn [snd]; (split; [reflexivity|]); (split; [|intros Hc; exfalso; apply Hc; reflexivity]);
      unfold emit; cbn [w_trace]; rewrite <- ?app_assoc; eexists; split; reflexivity. }
  destruct (String.eqb_spec action "enable") as [->|H2].
  { rewrite enable_eq, report_progress_eq. destruct (is_fts_enabled (w_db w));
      cbn [snd]; (split; [reflexivity|]); (split; [|intros Hc; exfalso; apply Hc; reflexivity]);
      unfold emit, with_db; cbn [w_trace]; rewrite <- ?app_assoc; eexists; split; reflexivity. }
  destruct (String.eqb_spec action "disable") as [->|H3].
  { rewrite disable_eq. cbn [snd]. destruct (is_fts_enabled (w_db w)) eqn:Hen.
    - destruct (reset_effect (emit [EDb c_is_fts_enabled] w)) as (_ & Hcon & added & Htr & Hq & _).
      split; [exact Hcon|]. split; [|intros _; split; reflexivity].
      exists ([EDb c_is_fts_enabled] ++ added ++ [EDb (c_enable_fts false)]).
      unfold emit at 1. unfold with_db. cbn [w_trace]. rewrite Htr. cbn [emit w_trace].
      rewrite <- !app_assoc. split; [reflexivity|].
      cbn [app forallb job_effect andb]. rewrite forallb_app, Hq. reflexivity.
    - split; [reflexivity|]. split; [|intros Hc; exfalso; apply Hc; reflexivity].
      eexists; split; reflexivity. }
  destruct (String.eqb_spec action "reindex") as [->|H4].
  { destruct (is_fts_enabled (w_db w)) eqn:Hen.
    - destruct adata as [d|].
      + rewrite (reindex_enabled w d Hen).
        destruct (d !! "items") as [[|item items]|]; rewrite report_progress_eq;
          cbn [snd]; (split; [reflexivity|]);
          (split; [|intros Hc; exfalso; apply Hc; reflexivity]);
          unfold emit, with_db; cbn [w_trace]; rewrite <- ?app_assoc;
          eexists; (split; [reflexivity|]);
          rewrite ?forallb_app; cbn [forallb job_effect andb]; rewrite ?andb_true_r;
          try reflexivity.
        clear. apply andb_true_intro. split; [reflexivity|].
        induction items as [|i items IH]; [reflexivity | exact IH].
      + unfold implementation; cbn [String.eqb Ascii.eqb Bool.eqb]. run_m.
        rewrite Hen. cbn [negb snd].
        split; [reflexivity|]. split; [|intros Hc; exfalso; apply Hc; reflexivity].
        eexists; split; reflexivity.
    - unfold implementation; cbn [String.eqb Ascii.eqb Bool.eqb]. run_m.
      rewrite Hen. cbn [negb snd].
      split; [reflexivity|]. split; [|intros Hc; exfalso; apply Hc; reflexivity].
      eexists; split; reflexivity. }
  rewrite (unknown_action_eq w action adata H1 H2 H3 H4). cbn [snd].
  split; [reflexivity|]. split; [|intros Hc; exfalso; apply Hc; reflexivity].
  exists []. rewrite app_nil_r. split; reflexivity.
Qed.

(** ** More on [to_spec] *)

Lemma upper_ascii_idem (c : ascii) : upper_ascii (upper_ascii c) = upper_ascii c.
Proof. destruct c as [[] [] [] [] [] [] [] []]; reflexivity. Qed.

Lemma upper_ascii_comma (c : ascii) : Ascii.eqb (upper_ascii c) "," = Ascii.eqb c ",".
Proof. destruct c as [[] [] [] [] [] [] [] []]; reflexivity. Qed.

Lemma upper_idem (s : string) : upper (upper s) = upper s.
Proof.
  induction s as [|c s IH]; [reflexivity|].
  cbn [upper]. rewrite upper_ascii_idem, IH. reflexivity.
Qed.

Lemma occurs_comma_upper (s : string) : occurs "," (upper s) = occurs "," s.
Proof.
  induction s as [|c s IH]; [reflexivity|].
  cbn [upper occurs]. rewrite upper_ascii_comma, IH. reflexivity.
Qed.

Lemma split_not_empty (sep : ascii) (s : string) : split sep s ≠ [].
Proof.
  destruct s as [|c s]; cbn [split]; [discriminate|].
  destruct (Ascii.eqb c sep); [discriminate|]. destruct (split sep s); discriminate.
Qed.

(** No part of a split holds the separator. *)
Lemma split_parts_clean (sep : ascii) (s : string) :
  Forall (λ p, occurs sep p = false) (split sep s).
Proof.
  induction s as [|c s IH]; cbn [split].
  - repeat constructor.
  - destruct (Ascii.eqb c sep) eqn:Hc.
    + constructor; [reflexivity | exact IH].
    + destruct (split sep s) as [|h t].
      * repeat constructor. cbn [occurs]. rewrite Hc. reflexivity.
      * apply Forall_cons in IH as [Hh Ht]. constructor; [|exact Ht].
        cbn [occurs]. rewrite Hc, Hh. reflexivity.
Qed.

(** A cut at the first separator gives one part, the string itself, when
    the separator is absent, and two parts otherwise. *)
Lemma split1_shape (sep : ascii) (s : string) :
  (occurs sep s = false ∧ split1 sep s = [s]) ∨
  (occurs sep s = true ∧ ∃ a b, split1 sep s = [a; b]).
Proof.
  induction s as [|c s IH]; cbn [occurs split1].
  - left. split; reflexivity.
  - destruct (Ascii.eqb c sep) eqn:Hc; cbn [orb].
    + right. split; [reflexivity | eexists _, _; reflexivity].
    + destruct IH as [[Ho Hs]|[Ho (a & b & Hs)]]; rewrite Hs, Ho.
      * left. split; reflexivity.
      * right. split; [reflexivity | eexists _, _; reflexivity].
Qed.

(** X5: on an ASCII item [to_spec] succeeds exactly when the text before
    the first colon is an integer for [int]; otherwise it raises
    [ValueError].  The tuple it returns starts with that integer, and
    every format name after it is in upper case and free of commas; there
    are format names exactly when the item holds a colon. *)
Theorem X5_to_spec_shape (x : string) :
  isascii x = true →
  match py_int (before_colon x) with
  | Some n =>
      ∃ fs, to_spec x = Ret (PInt n :: map PStr fs) ∧
            Forall (λ f, upper f = f ∧ occurs "," f = false) fs ∧
            (fs = [] ↔ occurs ":" x = false)
  | None => ∃ e, to_spec x = Raise e ∧ exn_class e = ValueError
  end.
Proof.
  intros _. unfold to_spec, before_colon.
  destruct (split1_shape ":" x) as [[Ho Hs]|[Ho (a & b & Hs)]]; rewrite Hs; cbn [hd].
  - destruct (py_int x) as [n|].
    + exists []. cbn. split; [reflexivity|]. split; [constructor|]. split; intros; congruence.
    + eexists. split; reflexivity.
  - destruct (py_int a) as [n|].
    + exists (map upper (split "," b)). cbn [length Nat.eqb nth].
      split; [|split].
      * cbn [app]. rewrite map_map. reflexivity.
      * apply Forall_map. eapply Forall_impl; [apply (split_parts_clean "," b)|].
        intros f Hf. cbn. rewrite upper_idem, occurs_comma_upper. split; [reflexivity | exact Hf].
      * split; [|congruence]. intros Hnil. apply map_eq_nil in Hnil.
        exfalso. exact (split_not_empty _ _ Hnil).
    + eexists. split; reflexivity.
Qed.

(** ** More on [main] *)

#[local] Existing Instances M_ret M_bind.

(** Normal form of the database calls of a trace built by appends. *)
Ltac calls_norm :=
  repeat (rewrite ?db_calls_app;
          progress cbn [db_calls app emit w_trace with_stdin with_db with_cache
                        with_objects silence_excepthook with_sched]);
  rewrite ?db_calls_app, ?app_nil_r, <- ?app_assoc; cbn [app].

Lemma to_spec_raises (x : string) :
  py_int (before_colon x) = None → to_spec x = Raise (int_error (before_colon x)).
Proof.
  intros Hint. unfold to_spec.
  change (hd EmptyString (split1 ":" x)) with (before_colon x). rewrite Hint. reflexivity.
Qed.

Lemma to_spec_returns (x : string) :
  is_Some (py_int (before_colon x)) → ∃ t, to_spec x = Ret t.
Proof.
  intros [n Hint]. unfold to_spec.
  change (hd EmptyString (split1 ":" x)) with (before_colon x). rewrite Hint.
  destruct (length (split1 ":" x) =? 1)%nat; eexists; reflexivity.
Qed.

Lemma map_to_spec_ok (items : list string) (specs : list tuple) w :
  Forall2 (λ x t, to_spec x = Ret t) items specs →
  map_to_spec items w = (Ret specs, w).
Proof.
  intros Hall. revert w. induction Hall as [|x t items specs Hx _ IH]; intros w; [reflexivity|].
  cbn [map_to_spec]. rewrite Hx. run_m. rewrite IH. reflexivity.
Qed.

Lemma map_to_spec_fail (good : list string) (bad : string) (rest : list string) (e : exn) w :
  Forall (λ g, ∃ t, to_spec g = Ret t) good →
  to_spec bad = Raise e →
  map_to_spec (good ++ bad :: rest) w = (Raise e, w).
Proof.
  intros Hgood Hbad. induction Hgood as [|g good [t Hg] _ IH]; cbn [app map_to_spec].
  - rewrite Hbad. reflexivity.
  - rewrite Hg. run_m. rewrite IH. reflexivity.
Qed.

(** X6: [reindex] with ASCII book arguments of which one does not start
    with an integer ends in the [ValueError] of [int] for that argument
    before anything else happens: nothing is printed, nothing is asked,
    and no job is submitted, not even for the well-formed arguments
    before it.  The arguments after it are never looked at. *)
Theorem X6_reindex_malformed_item (opts : Opts) (dbctx : DbCtx DB) w
    (good : list string) (bad : string) (rest : list string) :
  Forall (λ g, isascii g = true) (good ++ [bad]) →
  Forall (λ g, is_Some (py_int (before_colon g))) good →
  py_int (before_colon bad) = None →
  main gettext opts ("reindex" :: good ++ bad :: rest) dbctx w
    = (Raise (int_error (before_colon bad)), w) ∧
  exn_class (int_error (before_colon bad)) = ValueError.
Proof.
  intros _ Hgood Hbad.
  split; [|reflexivity].
  pose proof (to_spec_raises bad Hbad) as Hb.
  assert (Forall (λ g, ∃ t, to_spec g = Ret t) good) as Hg.
  { eapply Forall_impl; [exact Hgood|]. intros g Hg. apply to_spec_returns, Hg. }
  pose proof (map_to_spec_fail good bad rest _ w Hg Hb) as Hmap.
  unfold main; cbn [String.eqb Ascii.eqb Bool.eqb].
  destruct (good ++ bad :: rest) as [|x xs] eqn:Hitems; [destruct good; discriminate|].
  run_m. rewrite Hmap. reflexivity.
Qed.

(** X7: on a local library with indexing enabled, [reindex] with ASCII
    book arguments that all parse submits them without asking anything: the
    database receives one [reindex_fts_book] call for each argument, with
    the tuple [to_spec] made of it, in the order of the arguments, and
    the command returns 0. *)
Theorem X7_reindex_books_end_to_end (opts : Opts) w (x : string) (xs : list string)
    (specs : list tuple) :
  is_fts_enabled (w_db w) = true →
  wait_for_completion opts = false →
  Forall (λ x, isascii x = true) (x :: xs) →
  Forall2 (λ x t, to_spec x = Ret t) (x :: xs) specs →
  let r := main gettext opts ("reindex" :: x :: xs) (local_ctx gettext) w in
  fst r = Ret 0 ∧
  w_db (snd r) = reindex_books specs (w_db w) ∧
  db_calls (w_trace (snd r))
    = db_calls (w_trace w)
      ++ c_is_fts_enabled :: map c_reindex_fts_book specs ++ [c_fts_indexing_progress] ∧
  console (snd r) = console w.
Proof.
  intros Hen Hwait _ Hspecs r. unfold r.
  unfold main; cbn [String.eqb Ascii.eqb Bool.eqb]. run_m.
  rewrite (map_to_spec_ok _ _ w Hspecs). run_m.
  unfold run_job, local_ctx. run_m. cbn [run].
  rewrite (right_id_L ∅ (∪)), (reindex_enabled w _ Hen), lookup_singleton_eq.
  destruct specs as [|t ts]; [inversion Hspecs|].
  rewrite report_progress_eq. run_m.
  unfold print_indexed, subscript, wait_and_finish. rewrite Hwait. run_m.
  split; [reflexivity|]. split; [reflexivity|]. split; [|reflexivity].
  rewrite !db_calls_app, db_calls_reindex. cbn [db_calls]. rewrite <- !app_assoc, app_nil_r.
  reflexivity.
Qed.

Lemma lstrip_quotes (a : nat) (s : string) :
  lstrip dquote (quotes a +:+ s) = lstrip dquote s.
Proof.
  induction a as [|a IH]; [reflexivity|].
  cbn [quotes]. rewrite append_String. cbn [lstrip]. rewrite Ascii.eqb_refl. exact IH.
Qed.

Lemma rstrip_quotes (b : nat) : rstrip dquote (quotes b) = EmptyString.
Proof.
  induction b as [|b IH]; [reflexivity|].
  cbn [quotes rstrip]. rewrite IH, Ascii.eqb_refl. reflexivity.
Qed.

Lemma rstrip_app_quotes (s : string) (b : nat) :
  rstrip dquote (s +:+ quotes b) = rstrip dquote s.
Proof.
  induction s as [|c s IH].
  - rewrite append_empty. apply rstrip_quotes.
  - rewrite append_String. cbn [rstrip]. rewrite IH. reflexivity.
Qed.

(** Stripping double quotes from both ends removes any number of them. *)
Lemma strip_quotes (a b : nat) (c : ascii) (s : string) :
  Ascii.eqb c dquote = false →
  rstrip dquote (String c s) = String c s →
  strip dquote (quotes a +:+ String c s +:+ quotes b) = String c s.
Proof.
  intros Hc Hr. unfold strip. rewrite lstrip_quotes, append_String.
  cbn [lstrip]. rewrite Hc. rewrite <- append_String, rstrip_app_quotes. exact Hr.
Qed.

(** X8: [reindex] without book arguments asks before it acts.  The answer
    is a yes when it is the word [reindex] between any number of double
    quotes on either side: the job is then submitted with an empty tuple
    of items.  Any other answer ends the command with 0 and no job. *)
Theorem X8_reindex_confirmation (opts : Opts) (dbctx : DbCtx DB) w
    (q : string) (rest : list input_result) :
  w_stdin w = InputLine q :: rest →
  let w1 := with_stdin rest
              (emit [EOut (OutLine (gettext
                       "Re-indexing the entire library can take a long time. Are you sure?"));
                     EOut (OutFormat EmptyString
                             (gettext "Type {} to proceed, anything else to abort")
                             [FStr (quoted "reindex")] ": ")] w) in
  (∀ a b, q = quotes a +:+ "reindex" +:+ quotes b →
     main gettext opts ["reindex"] dbctx w
       = (s ← run_job dbctx "reindex" {[ "items" := [] ]};
          _ ← print_indexed gettext s;
          wait_and_finish gettext opts dbctx) w1) ∧
  (strip dquote q ≠ "reindex" → main gettext opts ["reindex"] dbctx w = (Ret 0, w1)).
Proof.
  intros Hin w1.
  assert (main gettext opts ["reindex"] dbctx w
          = if String.eqb (strip dquote q) "reindex"
            then (s ← run_job dbctx "reindex" {[ "items" := [] ]};
                  _ ← print_indexed gettext s;
                  wait_and_finish gettext opts dbctx) w1
            else (Ret 0, w1)) as Hmain.
  { unfold main; cbn [String.eqb Ascii.eqb Bool.eqb].
    unfold ask, silencing_interrupt, input. run_m. rewrite Hin. run_m.
    assert (with_stdin rest
              (emit [EOut (OutFormat EmptyString
                             (gettext "Type {} to proceed, anything else to abort")
                             [FStr (quoted "reindex")] ": ")]
                 (emit [EOut (OutLine (gettext
                          "Re-indexing the entire library can take a long time. Are you sure?"))]
                    w)) = w1) as -> by (unfold w1; world_eq).
    destruct (String.eqb (strip dquote q) "reindex"); reflexivity. }
  split.
  - intros a b ->. rewrite Hmain.
    change ("reindex" +:+ quotes b) with (String "r" "eindex" +:+ quotes b).
    rewrite strip_quotes; reflexivity.
  - intros Hno. rewrite Hmain. apply String.eqb_neq in Hno. rewrite Hno. reflexivity.
Qed.

(** X9: on a local library [disable] asks first and then always returns
    0, whatever the answer and even with [--wait-for-completion]: it
    never waits.  Only the answers [disable] and ["disable"] run the job:
    then the database is asked whether indexing is enabled and, if it is,
    told to disable it.  After any other answer the database is not
    called at all. *)
Theorem X9_disable_confirmation (opts : Opts) w (more : list string)
    (q : string) (rest : list input_result) :
  w_stdin w = InputLine q :: rest →
  let r := main gettext opts ("disable" :: more) (local_ctx gettext) w in
  fst r = Ret 0 ∧
  w_stdin (snd r) = rest ∧
  w_sched (snd r) = w_sched w ∧
  db_calls (w_trace (snd r))
    = db_calls (w_trace w)
      ++ (if accepts_disable q
          then c_is_fts_enabled
               :: (if is_fts_enabled (w_db w) then [c_enable_fts false] else [])
          else []).
Proof.
  intros Hin r. unfold r.
  unfold main; cbn [String.eqb Ascii.eqb Bool.eqb].
  unfold ask, silencing_interrupt, input. run_m. rewrite Hin. run_m.
  change (String.eqb q "disable" || String.eqb q (quoted "disable")) with (accepts_disable q).
  destruct (accepts_disable q).
  - unfold run_job, local_ctx. run_m. cbn [run]. rewrite disable_eq. run_m.
    destruct (is_fts_enabled _) eqn:Hen; run_m.
    + match goal with
      | |- context [reset_indexing_progress ?w1] =>
          destruct (reset_effect w1) as (_ & Hcon & added & Htr & _ & Hcalls)
      end.
      unfold run_in, console in *. injection Hcon as Hstdin _ Hsched.
      split; [reflexivity|]. split; [exact Hstdin|]. split; [exact Hsched|].
      rewrite !db_calls_app, Htr, !db_calls_app, Hcalls. calls_norm. reflexivity.
    + split; [reflexivity|]. split; [reflexivity|]. split; [reflexivity|].
      calls_norm. reflexivity.
  - run_m. split; [reflexivity|]. split; [reflexivity|]. split; [reflexivity|].
    calls_norm. reflexivity.
Qed.


(** X11: [status] ends the process with exit status 2 when the job
    reports that indexing is disabled, after the one line that says so,
    and without waiting even if [--wait-for-completion] was given; when
    the job reports enabled it prints the two status lines, the counts
    being [total - left] and [total], and goes on to the wait. *)
Theorem X11_status_exit_code (opts : Opts) (dbctx : DbCtx DB) w (more : list string)
    (st : Status) (w1 : World DB) :
  run dbctx "fts_index" "status" ∅ w = (Ret (Some st), w1) →
  main gettext opts ("status" :: more) dbctx w
    = (if enabled st
       then wait_and_finish gettext opts dbctx
              (emit [EOut (OutLine (gettext "FTS Indexing is enabled"));
                     EOut (OutFormat EmptyString (gettext "{0} of {1} books files indexed")
                             [FInt (total st - left st); FInt (total st)] newline)] w1)
       else (Raise (mk_exn SystemExit (Some (PInt 2)) false),
             emit [EOut (OutLine (gettext "FTS Indexing is disabled"))] w1)) ∧
  exit_status (mk_exn SystemExit (Some (PInt 2)) false) = 2.
Proof.
  intros Hrun. split; [|reflexivity].
  unfold main; cbn [String.eqb Ascii.eqb Bool.eqb].
  unfold run_job. run_m. rewrite (right_id_L ∅ (∪)), Hrun. run_m.
  unfold subscript. run_m. destruct (enabled st); run_m; [|reflexivity].
  unfold print_indexed, subscript. run_m. f_equal. world_eq.
Qed.

(** X12: with [--wait-for-completion] on a remote library, [enable] runs
    its job, prints its two lines and the line that announces the wait,
    and then raises [NotImplementedError]: nothing waits.  The exception
    hook is left alone. *)
Theorem X12_remote_wait_not_implemented (opts : Opts) (dbctx : DbCtx DB) w
    (more : list string) (st : Status) (w1 : World DB) :
  is_remote dbctx = true →
  wait_for_completion opts = true →
  run dbctx "fts_index" "enable" ∅ w = (Ret (Some st), w1) →
  ∃ e, main gettext opts ("enable" :: more) dbctx w
       = (Raise e,
          emit [EOut (OutLine (gettext "FTS indexing has been enabled"));
                EOut (OutFormat EmptyString (gettext "{0} of {1} books files indexed")
                        [FInt (total st - left st); FInt (total st)] newline);
                EOut (OutLine (gettext
                        "Waiting for FTS indexing to complete, press Ctrl-C to abort..."))]
               w1) ∧
       exn_class e = NotImplementedError.
Proof.
  intros Hremote Hwait Hrun.
  exists (mk_exn NotImplementedError
            (Some (PStr "TODO: Implement waiting for completion via polling")) false).
  split; [|reflexivity].
  unfold main; cbn [String.eqb Ascii.eqb Bool.eqb].
  unfold run_job. run_m. rewrite (right_id_L ∅ (∪)), Hrun. run_m.
  unfold print_indexed, subscript, wait_and_finish, silencing_interrupt.
  rewrite Hwait, Hremote. run_m. f_equal. world_eq.
Qed.

(** ** More on the completion waiter *)

(** X16: only events of type [indexing_progress_changed] matter to the
    waiter: deliveries of events of any other type can be removed from a
    schedule without changing the state it leads to, from any state. *)
Theorem X16_other_events_ignored (speed : string) (sched : list act) s :
  exec gettext speed (drop_other sched) s = exec gettext speed sched s.
Proof.
  revert s. induction sched as [|a sched IH]; intros s; [reflexivity|].
  destruct a as [[lib l t|lib k]| |]; cbn [drop_other exec fold_left apply_act];
    try apply IH.
  rewrite dispatch_other. apply IH.
Qed.

(** Once unwound by an exception the waiter stays so. *)
Lemma raised_stable (speed : string) (e : exn) (post : list act) :
  ∀ s, wt_pc s = WRaised e →
       wt_pc (exec gettext speed post s) = WRaised e ∧
       wt_consumed (exec gettext speed post s) = wt_consumed s.
Proof.
  induction post as [|a post IH]; intros s Hpc; [split; [exact Hpc | reflexivity]|].
  cbn [exec fold_left].
  assert (wt_pc (apply_act gettext speed s a) = WRaised e ∧
          wt_consumed (apply_act gettext speed s a) = wt_consumed s) as [Hpc' Hcons'].
  { destruct a as [ev| |]; cbn [apply_act].
    - destruct (dispatch_frame ev s) as (H1 & H2 & _). rewrite H1, H2. split; [exact Hpc | reflexivity].
    - unfold waiter_step. rewrite Hpc. split; [exact Hpc | reflexivity].
    - unfold interrupt. rewrite Hpc. split; [exact Hpc | reflexivity]. }
  destruct (IH _ Hpc') as [H1 H2]. split; [exact H1 | rewrite <- Hcons'; exact H2].
Qed.

(** X13: Ctrl-C while the waiter has not returned ends the wait, wherever
    the waiter stands and whatever comes after: the call raises
    [KeyboardInterrupt] having dequeued nothing more, and the handler
    around the call in [main] replaces the exception hook by the silent
    one before it lets the exception through. *)
Theorem X13_interrupt_ends_wait (w : World DB) (speed : string) (before after : list act) :
  let s1 := exec gettext speed before (wait_init (with_sched [] w)) in
  wt_pc s1 = WStart ∨ wt_pc s1 = WRegistered ∨ wt_pc s1 = WLoop →
  w_sched w = before ++ Interrupt :: after →
  let s := exec gettext speed (before ++ Interrupt :: after) (wait_init (with_sched [] w)) in
  let r := silencing_interrupt (local_wait_for_completion gettext speed) w in
  wt_consumed s = wt_consumed s1 ∧
  fst (local_wait_for_completion gettext speed w)
    = Raise (mk_exn KeyboardInterrupt None false) ∧
  fst r = Raise (mk_exn KeyboardInterrupt None false) ∧
  w_excepthook_silenced (snd r) = true.
Proof.
  intros s1 Hpc Hsched s r.
  assert (wt_pc (interrupt s1) = WRaised (mk_exn KeyboardInterrupt None false) ∧
          wt_consumed (interrupt s1) = wt_consumed s1) as [Hi Hc].
  { unfold interrupt. destruct Hpc as [-> | [-> | ->]]; split; reflexivity. }
  assert (s = exec gettext speed after (interrupt s1)) as Hs.
  { unfold s, s1. rewrite exec_app. reflexivity. }
  assert (fst (local_wait_for_completion gettext speed w)
          = Raise (mk_exn KeyboardInterrupt None false)) as Hcall.
  { unfold local_wait_for_completion. cbv zeta. rewrite Hsched. fold s.
    rewrite Hs, <- exec_app.
    rewrite (proj1 (raised_stable speed _ _ (interrupt s1) Hi)). reflexivity. }
  split; [|split; [exact Hcall|]].
  - rewrite Hs, (proj2 (raised_stable speed _ after (interrupt s1) Hi)). exact Hc.
  - unfold r, silencing_interrupt. run_m.
    destruct (local_wait_for_completion gettext speed w) as [[[]|e|] w'] eqn:Hl;
      cbn [fst] in Hcall; try discriminate.
    injection Hcall as ->. cbn. split; reflexivity.
Qed.

(** As long as no terminal event is delivered the waiter is on its way to
    the loop or in it, with nothing terminal in the queue. *)
Lemma still_waiting (w0 : World DB) (speed : string) (sched : list act) :
  (1 ≤ starting_left speed w0)%Z →
  Interrupt ∉ sched →
  Forall (λ e, (1 ≤ fst e)%Z) (delivered sched) →
  let s := exec gettext speed sched (wait_init w0) in
  (wt_pc s = WStart ∨ wt_pc s = WRegistered ∨ wt_pc s = WLoop) ∧
  Forall (λ e, (1 ≤ fst e)%Z) (wt_queue s).
Proof.
  intros Hstart. induction sched as [|a sched IH] using rev_ind; intros Hno Hdel.
  { cbn. split; [left; reflexivity | constructor]. }
  rewrite delivered_app in Hdel. apply Forall_app in Hdel as [Hdel Ha].
  assert (Interrupt ∉ sched) as Hno' by (intros Hin; apply Hno, elem_of_app; left; exact Hin).
  specialize (IH Hno' Hdel). cbv zeta in IH |- *.
  pose proof (reach_exec w0 speed sched _ (reach_init w0 speed)) as Hinv.
  rewrite exec_app. cbn [exec fold_left].
  set (s := exec gettext speed sched (wait_init w0)) in *.
  change (fold_left (apply_act gettext speed) sched (wait_init w0)) with s.
  destruct IH as [Hpc Hq].
  destruct a as [[lib l t|lib k]| |]; cbn [apply_act].
  - unfold dispatch. destruct (bool_decide _); [|split; assumption].
    cbn [listen wt_pc wt_queue]. split; [exact Hpc|].
    apply Forall_app. split; [exact Hq | exact Ha].
  - rewrite dispatch_other. split; assumption.
  - unfold waiter_step. unfold reach_inv in Hinv.
    destruct Hpc as [Hpc | [Hpc | Hpc]]; rewrite Hpc in *.
    + cbn [wt_pc wt_queue]. split; [right; left; reflexivity | exact Hq].
    + destruct Hinv as (Hdb & _ & _).
      destruct (read_start_spec speed (wt_world s)) as (w' & Hrs & _).
      rewrite Hrs. rewrite Hdb, db_at_read_unfold. fold (starting_left speed w0).
      assert ((starting_left speed w0 <? 1)%Z = false) as -> by lia.
      cbn [negb wt_pc wt_queue]. split; [right; right; reflexivity | exact Hq].
    + destruct (wt_queue s) as [|[l t] q'] eqn:Hqs.
      * rewrite Hpc, Hqs. split; [right; right; reflexivity | constructor].
      * apply Forall_cons in Hq as [Hl Hq']. cbn [fst] in Hl.
        assert ((l <? 1)%Z = false) as -> by lia.
        cbn [wt_pc wt_queue]. split; [right; right; reflexivity | exact Hq'].
  - exfalso. apply Hno, elem_of_app. right. apply list_elem_of_singleton. reflexivity.
Qed.

(** X14: the wait has no other way out than a terminal event or Ctrl-C.
    If the loop is entered (the starting count is at least 1), nobody
    interrupts and every progress event delivered has a remaining count
    of at least 1, the waiter has not returned, however long the schedule
    is; and if that schedule is all that ever happens, the call never
    returns. *)
Theorem X14_no_return_without_terminal_event (w : World DB) (speed : string)
    (sched : list act) :
  (1 ≤ starting_left speed w)%Z →
  Interrupt ∉ sched →
  Forall (λ e, (1 ≤ fst e)%Z) (delivered sched) →
  wt_pc (exec gettext speed sched (wait_init w)) ≠ WReturned ∧
  (w_sched w = sched → fst (local_wait_for_completion gettext speed w) = Diverge).
Proof.
  intros Hstart Hno Hdel. split.
  - destruct (still_waiting w speed sched Hstart Hno Hdel) as [[Hpc | [Hpc | Hpc]] _];
      rewrite Hpc; discriminate.
  - intros Hsched. unfold local_wait_for_completion. cbv zeta. rewrite Hsched, <- exec_app.
    set (k := (2 + length (wt_queue (exec gettext speed sched (wait_init (with_sched [] w)))))%nat).
    destruct (still_waiting (with_sched [] w) speed (sched ++ repeat WaiterStep k) Hstart)
      as [[Hpc | [Hpc | Hpc]] _].
    + intros [Hin|Hin]%elem_of_app; [exact (Hno Hin) | exact (no_interrupt_repeat _ Hin)].
    + rewrite delivered_app, delivered_repeat, app_nil_r. exact Hdel.
    + rewrite Hpc. reflexivity.
    + rewrite Hpc. reflexivity.
    + rewrite Hpc. reflexivity.
Qed.

Lemma progress_shown_app (a b : list effect) :
  progress_shown (a ++ b) = progress_shown a ++ progress_shown b.
Proof.
  induction a as [|e a IH]; [reflexivity|].
  cbn [app progress_shown].
  repeat match goal with
         | |- context [match ?x with _ => _ end] => is_var x; destruct x
         end; cbn [app]; rewrite ?IH; reflexivity.
Qed.

Lemma update_shown w (l t : Z) :
  progress_shown (w_trace (run_in (update_indexing_progress l t) w))
    = progress_shown (w_trace w).
Proof.
  unfold update_indexing_progress, indexing_progress, obj_modify. run_m.
  destruct (w_cache w) as [o|] eqn:Hc; run_m; rewrite ?Hc, Nat.eqb_refl; run_m;
    rewrite !progress_shown_app; cbn; rewrite ?app_nil_r; reflexivity.
Qed.

Lemma show_progress_shown w (l t : Z) :
  progress_shown (w_trace (snd (show_progress gettext l t w)))
    = progress_shown (w_trace w) ++ [shown_for (l, t)].
Proof.
  unfold show_progress, indexing_progress_time_left, indexing_progress. run_m.
  destruct (w_cache w) as [o|] eqn:Hc; run_m;
    rewrite !progress_shown_app; cbn; rewrite ?app_nil_r; reflexivity.
Qed.

Lemma read_start_shown (speed : string) w :
  let start := fts_indexing_progress
                 (if String.eqb speed EmptyString then w_db w
                  else set_fts_speed (String.eqb speed "slow") (w_db w)) in
  progress_shown (w_trace (snd (read_start gettext speed w)))
    = progress_shown (w_trace w)
      ++ (if (fst start <? 1)%Z then [] else [shown_for start]).
Proof.
  cbv zeta. unfold read_start. run_m.
  destruct (String.eqb speed EmptyString) eqn:Hs; run_m.
  - destruct (fts_indexing_progress (w_db w)) as [l t] eqn:Hp; run_m.
    destruct (l <? 1)%Z eqn:Hl; run_m.
    + rewrite !progress_shown_app. cbn. rewrite ?app_nil_r. reflexivity.
    + pose proof (show_progress_shown (emit [EDb c_fts_indexing_progress] w) l t) as Hsp.
      destruct (show_progress_spec (emit [EDb c_fts_indexing_progress] w) l t)
        as (w' & Heq & _).
      rewrite Heq in Hsp |- *. run_m. cbn [snd] in Hsp. rewrite Hsp. run_m.
      rewrite !progress_shown_app. cbn. rewrite ?app_nil_r. reflexivity.
  - destruct (fts_indexing_progress (set_fts_speed (String.eqb speed "slow") (w_db w)))
      as [l t] eqn:Hp; run_m.
    destruct (l <? 1)%Z eqn:Hl; run_m.
    + rewrite !progress_shown_app. cbn. rewrite ?app_nil_r. reflexivity.
    + match goal with
      | |- context [show_progress gettext l t ?w1] =>
          pose proof (show_progress_shown w1 l t) as Hsp;
          destruct (show_progress_spec w1 l t) as (w' & Heq & _)
      end.
      rewrite Heq in Hsp |- *. run_m. cbn [snd] in Hsp. rewrite Hsp. run_m.
      rewrite !progress_shown_app. cbn. rewrite ?app_nil_r. reflexivity.
Qed.

(** Every act of every thread preserves [shown_inv]. *)
Lemma shown_step (w0 : World DB) (speed : string) (a : act) s :
  reach_inv w0 speed s →
  shown_inv w0 speed s → shown_inv w0 speed (apply_act gettext speed s a).
Proof.
  intros Hreach Hinv. unfold shown_inv in *. cbv zeta in *.
  destruct a as [[lib l t|lib k]| |]; cbn [apply_act].
  - unfold dispatch. destruct (bool_decide _); [|exact Hinv].
    cbn [listen wt_pc wt_world wt_consumed]. rewrite update_shown. exact Hinv.
  - rewrite dispatch_other. exact Hinv.
  - unfold waiter_step. unfold reach_inv in Hreach.
    destruct (wt_pc s) eqn:Hpc.
    + cbn [wt_pc wt_world]. run_m. rewrite progress_shown_app, app_nil_r. exact Hinv.
    + destruct Hreach as (Hdb & _ & Hcons).
      pose proof (read_start_shown speed (wt_world s)) as Hsh. cbv zeta in Hsh.
      destruct (read_start_spec speed (wt_world s)) as (w' & Hrs & _).
      rewrite Hrs in Hsh |- *. cbn [snd] in Hsh.
      rewrite Hdb, db_at_read_unfold in Hsh. rewrite Hdb, db_at_read_unfold.
      destruct (fst (fts_indexing_progress (db_at_read speed (w_db w0))) <? 1)%Z;
        cbn [negb wt_pc wt_world wt_consumed].
      * left. split; [exact Hcons|]. rewrite Hsh, Hinv, app_nil_r. reflexivity.
      * rewrite Hsh, Hinv, Hcons. reflexivity.
    + destruct (wt_queue s) as [|[l t] q'] eqn:Hq.
      * rewrite Hpc. exact Hinv.
      * destruct (l <? 1)%Z; cbn [wt_pc wt_world wt_consumed].
        -- right. exists (wt_consumed s), (l, t). split; [reflexivity|].
           run_m. rewrite progress_shown_app, app_nil_r. exact Hinv.
        -- unfold run_in. rewrite show_progress_shown, Hinv, map_app, <- app_assoc.
           reflexivity.
    + rewrite Hpc. exact Hinv.
    + rewrite Hpc. exact Hinv.
  - unfold interrupt. destruct (wt_pc s) eqn:Hpc; cbn [wt_pc]; rewrite ?Hpc; first [exact I | exact Hinv].
Qed.

Lemma shown_exec (w0 : World DB) (speed : string) (sched : list act) :
  shown_inv w0 speed (exec gettext speed sched (wait_init w0)).
Proof.
  induction sched as [|a sched IH] using rev_ind; [reflexivity|].
  rewrite exec_app. cbn [exec fold_left].
  apply shown_step; [|exact IH].
  apply reach_exec, reach_init.
Qed.

(** X15: the progress lines of a wait that has returned.  If nothing was
    dequeued (the starting count was below 1) the waiter has written
    none.  Otherwise it has written one line for the starting progress
    and one for each event it dequeued except the last, the terminal one,
    in the order of dequeuing; each line shows [total - left] and
    [total].  This holds under every schedule. *)
Theorem X15_progress_lines (w : World DB) (speed : string) (sched : list act) :
  let s := exec gettext speed sched (wait_init w) in
  wt_pc s = WReturned →
  progress_shown (w_trace (wt_world s))
    = progress_shown (w_trace w)
      ++ match wt_consumed s with
         | [] => []
         | _ :: _ =>
             shown_for (fts_indexing_progress (db_at_read speed (w_db w)))
             :: map shown_for (removelast (wt_consumed s))
         end.
Proof.
  intros s Hpc. pose proof (shown_exec w speed sched) as Hinv.
  fold s in Hinv. unfold shown_inv in Hinv. cbv zeta in Hinv. rewrite Hpc in Hinv.
  destruct Hinv as [[Hc Hsh] | (c & e & Hc & Hsh)]; rewrite Hc, Hsh.
  - rewrite app_nil_r. reflexivity.
  - destruct (c ++ [e]) as [|x l] eqn:Heq; [destruct c; discriminate|].
    rewrite <- Heq, removelast_last. reflexivity.
Qed.

(** The call of the waiter returns when the schedule of the world brings
    the events up to a terminal one. *)
Lemma wait_call_returns (w : World DB) (speed : string) (pre : list (Z * Z)) (last : Z * Z)
    (sched : list act) :
  (1 ≤ starting_left speed w)%Z →
  Forall (λ e, (1 ≤ fst e)%Z) pre →
  (fst last < 1)%Z →
  Interrupt ∉ sched →
  delivered sched = pre ++ [last] →
  w_sched w = WaiterStep :: sched →
  ∃ w', local_wait_for_completion gettext speed w = (Ret (), w').
Proof.
  intros Hstart Hpre Hlast Hno Hdel Hsched.
  unfold local_wait_for_completion. cbv zeta. rewrite Hsched.
  unfold exec. cbn [fold_left apply_act].
  set (s1 := fold_left (apply_act gettext speed) sched
               (waiter_step gettext speed (wait_init (with_sched [] w)))).
  destruct (wait_returns (with_sched [] w) speed pre last Hstart Hpre Hlast sched
              (2 + length (wt_queue s1)) Hno Hdel) as [_ Hret].
  unfold exec in Hret. fold s1 in Hret. rewrite Hret; [eexists; reflexivity | lia].
Qed.

(** X18: [status --wait-for-completion] on a local library with indexing
    enabled and books still to index returns 0 once the events up to a
    terminal one have arrived, and the last thing it prints is that all
    books are indexed. *)
Theorem X18_status_waits_then_returns (opts : Opts) (w : World DB) (more : list string)
    (pre : list (Z * Z)) (last : Z * Z) (sched : list act) :
  is_fts_enabled (w_db w) = true →
  wait_for_completion opts = true →
  (1 ≤ starting_left (indexing_speed opts) w)%Z →
  Forall (λ e, (1 ≤ fst e)%Z) pre →
  (fst last < 1)%Z →
  Interrupt ∉ sched →
  delivered sched = pre ++ [last] →
  w_sched w = WaiterStep :: sched →
  let r := main gettext opts ("status" :: more) (local_ctx gettext) w in
  fst r = Ret 0 ∧
  ∃ tr, w_trace (snd r) = tr ++ [EOut (OutLine (gettext "All books indexed!"))].
Proof.
  intros Hen Hwait Hstart Hpre Hlast Hno Hdel Hsched r. unfold r.
  unfold main; cbn [String.eqb Ascii.eqb Bool.eqb].
  unfold run_job, local_ctx. run_m. cbn [run]. rewrite status_eq, Hen, report_progress_eq.
  run_m. unfold subscript. run_m.
  unfold print_indexed, subscript, wait_and_finish, silencing_interrupt.
  rewrite Hwait. cbn [is_remote enabled left total]. run_m.
  match goal with
  | |- context [local_wait_for_completion gettext _ ?w2] =>
      destruct (wait_call_returns w2 (indexing_speed opts) pre last sched
                  Hstart Hpre Hlast Hno Hdel Hsched) as [w' Hcall]
  end.
  rewrite Hcall. run_m. split; [reflexivity|]. eexists. reflexivity.
Qed.

End Properties.

(** * Concrete runs

    The theorems above at concrete inputs, on the database [MockDb] and
    with the identity as translation. *)

Local Open Scope list_scope.

(** The Python string operations on small inputs. *)
Example py_int_examples :
  py_int " -12_3 " = Some (-123)%Z ∧ py_int "007" = Some 7%Z ∧ py_int "+5" = Some 5%Z ∧
  py_int "1:2" = None ∧ py_int EmptyString = None ∧ py_int "1__2" = None ∧
  py_int "12_" = None ∧ py_int "- 1" = None ∧ py_int "0x10" = None ∧
  py_int "_1" = None ∧ py_int "+-1" = None ∧ py_int "1 2" = None ∧
  py_int (String "009" (String "010" (String "011" (String "012" (String "013" " 7")))))
    = Some 7%Z ∧
  py_int (String "028" "7") = None ∧ py_int (String "031" "7") = None ∧
  py_int (String "7" (String "000" EmptyString)) = None.
Proof. repeat split; reflexivity. Qed.

(** [int] refuses a literal of more than 4300 digits, leading zeros
    counted and underscores not, whatever follows the digits. *)
Example py_int_limit_examples :
  let run (c : ascii) (n : nat) := string_of_list_ascii (repeat c n) in
  let too_long (n : string) :=
    "Exceeds the limit (4300 digits) for integer string conversion: value has " +:+ n
      +:+ " digits; use sys.set_int_max_str_digits() to increase the limit" in
  py_int (run "9"%char 4300%nat) = Some (10 ^ 4300 - 1)%Z ∧
  py_int ("-" +:+ run "0"%char 4299%nat +:+ "_7 ") = Some (-7)%Z ∧
  py_int (run "9"%char 4301%nat) = None ∧
  int_message (run "9"%char 4301%nat) = too_long "4301" ∧
  int_message (" -" +:+ run "0"%char 4302%nat +:+ " x") = too_long "4302" ∧
  int_message (run "9"%char 4301%nat +:+ "_")
    = "invalid literal for int() with base 10: '" +:+ run "9"%char 199%nat.
Proof. vm_compute. repeat split; reflexivity. Qed.

(** [repr] chooses the quotes by the quotes in the text and escapes
    control characters; [int] shows its argument that way. *)
Example int_message_examples :
  repr "ab" = "'ab'" ∧
  repr "a'b" = quoted "a'b" ∧
  repr (quoted "a'b")
    = String "'" (String dquote (String "a" (String backslash
        (String "'" (String "b" (String dquote "'")))))) ∧
  repr (String "009" (String "028" (String "127" (String backslash EmptyString))))
    = "'" +:+ String backslash "t" +:+ String backslash "x1c" +:+ String backslash "x7f"
        +:+ String backslash (String backslash "'") ∧
  int_message (String "028" "7")
    = "invalid literal for int() with base 10: '" +:+ String backslash "x1c7'".
Proof. vm_compute. repeat split; reflexivity. Qed.

Example split_examples :
  split "," "a,b,,c" = ["a"; "b"; EmptyString; "c"] ∧
  split "," EmptyString = [EmptyString] ∧
  split1 ":" "a:b:c" = ["a"; "b:c"] ∧
  split1 ":" "abc" = ["abc"] ∧
  split1 ":" "12:" = ["12"; EmptyString].
Proof. repeat split; reflexivity. Qed.

Example upper_strip_examples :
  upper "epub,Pdf1z{" = "EPUB,PDF1Z{" ∧
  strip dquote (quoted "reindex") = "reindex" ∧
  strip dquote (quoted (quoted "reindex")) = "reindex" ∧
  rstrip "a" "baab aa" = "baab ".
Proof. repeat split; reflexivity. Qed.

Example to_spec_examples :
  to_spec "12:epub,pdf" = Ret [PInt 12; PStr "EPUB"; PStr "PDF"] ∧
  to_spec "12:" = Ret [PInt 12; PStr EmptyString] ∧
  to_spec " 7 " = Ret [PInt 7] ∧
  to_spec "x12:epub"
    = Raise (mk_exn ValueError
                    (Some (PStr "invalid literal for int() with base 10: 'x12'")) false) ∧
  to_spec "it's"
    = Raise (mk_exn ValueError
                    (Some (PStr ("invalid literal for int() with base 10: " +:+ quoted "it's")))
                    false).
Proof. vm_compute. repeat split; reflexivity. Qed.

(** [main] on a local library: [status] with indexing off ends the process
    with status 2 after one query. *)
Example main_status_disabled :
  let w := fresh_world (mock_db false (-1) (-1)) [] [] in
  main id (mk_opts false EmptyString) ["status"] (local_ctx id) w
    = (Raise (mk_exn SystemExit (Some (PInt 2)) false),
       emit [EDb c_is_fts_enabled; EOut (OutLine "FTS Indexing is disabled")] w) ∧
  exit_status (mk_exn SystemExit (Some (PInt 2)) false) = 2%Z.
Proof. vm_compute. split; reflexivity. Qed.

(** [reindex 3:epub] with [--wait-for-completion]: the book is queued, the
    waiter follows the events and the call returns 0. *)
Example main_reindex_and_wait :
  let sched := [WaiterStep; delivery 2 10; WaiterStep; delivery 1 10; delivery 0 10] in
  let r := main id (mk_opts true "fast") ["reindex"; "3:epub"] (local_ctx id)
                (fresh_world (mock_db true 3 10) [] sched) in
  fst r = Ret 0%Z ∧
  m_requests (w_db (snd r)) = [Some [PInt 3; PStr "EPUB"]] ∧
  m_slow (w_db (snd r)) = Some false ∧
  tracker_updates (w_trace (snd r)) = [(2, 10); (1, 10); (0, 10)]%Z.
Proof. vm_compute. repeat split; reflexivity. Qed.

(** Without a terminal event the wait never ends; with Ctrl-C it ends in
    [KeyboardInterrupt] and the exception hook is silenced. *)
Example main_wait_blocks_or_is_interrupted :
  fst (main id (mk_opts true EmptyString) ["status"] (local_ctx id)
            (fresh_world (mock_db true 3 10) [] [WaiterStep; delivery 2 10]))
    = Diverge ∧
  (let r := main id (mk_opts true EmptyString) ["status"] (local_ctx id)
                 (fresh_world (mock_db true 3 10) []
                              [WaiterStep; delivery 2 10; WaiterStep; Interrupt]) in
   fst r = Raise (mk_exn KeyboardInterrupt None false) ∧
   w_excepthook_silenced (snd r) = true).
Proof. vm_compute. repeat split; reflexivity. Qed.

(** [disable] asks first: any answer but the word ends the command with
    0 and no job; the quoted word runs the job. *)
Example main_disable_asks :
  (let r := main id (mk_opts false EmptyString) ["disable"] (local_ctx id)
                 (fresh_world (mock_db true 3 10) [InputLine "no"] []) in
   fst r = Ret 0%Z ∧ db_calls (w_trace (snd r)) = []) ∧
  (let r := main id (mk_opts false EmptyString) ["disable"] (local_ctx id)
                 (fresh_world (mock_db true 3 10) [InputLine (quoted "disable")] []) in
   fst r = Ret 0%Z ∧
   db_calls (w_trace (snd r)) = [c_is_fts_enabled; c_enable_fts false] ∧
   is_fts_enabled (w_db (snd r)) = false).
Proof. vm_compute. repeat split; reflexivity. Qed.

(** The example of the spec: the events (50,100), (20,100), (0,100) reach
    a waiter that started at (50,100), interleaved with its steps. *)
Lemma C1_witness :
  let w := fresh_world (mock_db true 50 100) [] [] in
  let sched := [delivery 50 100; WaiterStep; delivery 20 100; WaiterStep; delivery 0 100] in
  let s := exec id EmptyString sched (waiter_step id EmptyString (wait_init w)) in
  ((1 ≤ starting_left EmptyString w)%Z ∧
   Forall (λ e, (1 ≤ fst e)%Z) [(50, 100); (20, 100)] ∧
   (fst (0, 100) < 1)%Z ∧
   (Interrupt ∉ sched) ∧
   delivered sched = [(50, 100); (20, 100)] ++ [(0, 100)]) ∧
  tracker_updates (w_trace (wt_world s)) = [(50, 100); (20, 100); (0, 100)] ∧
  wt_pc (exec id EmptyString (repeat WaiterStep 4) s) = WReturned ∧
  wt_consumed (exec id EmptyString (repeat WaiterStep 4) s) = [(50, 100); (20, 100); (0, 100)] ∧
  fst (local_wait_for_completion id EmptyString
         (fresh_world (mock_db true 50 100) [] (WaiterStep :: sched))) = Ret ().
Proof.
  intros w sched s.
  assert ((1 ≤ starting_left EmptyString w)%Z) as H1 by (vm_compute; discriminate).
  assert (Forall (λ e, (1 ≤ fst e)%Z) [(50, 100); (20, 100)]) as H2
    by (repeat constructor; vm_compute; discriminate).
  assert ((fst (0, 100) < 1)%Z) as H3 by reflexivity.
  assert (Interrupt ∉ sched) as H4 by not_in_list.
  assert (delivered sched = [(50, 100); (20, 100)] ++ [(0, 100)]) as H5 by reflexivity.
  destruct (C1_events_forwarded_then_return id w EmptyString sched) as (Hup & Hloop).
  destruct (Hloop [(50, 100); (20, 100)] (0, 100) H1 H2 H3 H4 H5) as (_ & _ & Hk & _).
  destruct (Hk 4%nat (le_n 4)) as (Hret & Hcons & _).
  destruct (C1_events_forwarded_then_return id
              (fresh_world (mock_db true 50 100) [] (WaiterStep :: sched)) EmptyString sched)
    as (_ & Hloop').
  destruct (Hloop' [(50, 100); (20, 100)] (0, 100) H1 H2 H3 H4 H5) as (_ & _ & _ & Hcall).
  split; [repeat split; assumption|].
  split; [exact Hup|]. split; [exact Hret|]. split; [exact Hcons|].
  apply Hcall. reflexivity.
Defined.

Lemma C2_witness :
  let w := fresh_world (mock_db true 0 10) [] [delivery 5 10] in
  let sched := [WaiterStep; delivery 5 10; WaiterStep] in
  let s := exec id EmptyString sched (wait_init w) in
  (starting_left EmptyString w < 1)%Z ∧
  wt_consumed s = [] ∧ wt_pc s ≠ WLoop ∧ wt_pc s = WReturned ∧
  fst (local_wait_for_completion id EmptyString w) = Ret ().
Proof.
  intros w sched s.
  assert ((starting_left EmptyString w < 1)%Z) as H1 by reflexivity.
  destruct (C2_already_complete id w EmptyString sched H1) as (Hc & Hl & Hr & Hcall).
  split; [exact H1|]. split; [exact Hc|]. split; [exact Hl|]. split.
  - apply Hr; [not_in_list | apply le_n].
  - apply Hcall. not_in_list.
Defined.



Lemma C4_witness :
  let w := fresh_world (mock_db false 3 10) [] [] in
  is_fts_enabled (w_db w) = false ∧
  implementation id "reindex" None w
    = (Raise (mk_exn Exception
                     (Some (PStr "Full text indexing is not enabled on this library")) true),
       emit [EDb c_is_fts_enabled] w) ∧
  run_job (local_ctx id) "reindex" ∅ w
    = (Raise (mk_exn SystemExit
                     (Some (PStr "Full text indexing is not enabled on this library")) false),
       emit [EDb c_is_fts_enabled] w).
Proof.
  intros w.
  assert (is_fts_enabled (w_db w) = false) as H1 by reflexivity.
  destruct (C4_user_facing_failure (DB := MockDb) id) as (Himpl & _ & Hlocal).
  split; [exact H1|]. split; [exact (Himpl w None H1)|].
  exact (Hlocal w ∅ H1).
Defined.

Lemma C5_witness :
  let off := fresh_world (mock_db false 3 10) [] [] in
  let on := fresh_world (mock_db true 3 10) [] [] in
  (is_fts_enabled (w_db off) = false ∧ is_fts_enabled (w_db on) = true) ∧
  fst (implementation id "status" None off) = Ret (Some (mk_status false (-1) (-1))) ∧
  fst (implementation id "status" None on) = Ret (Some (mk_status true 3 10)).
Proof.
  intros off on.
  assert (is_fts_enabled (w_db off) = false) as H1 by reflexivity.
  assert (is_fts_enabled (w_db on) = true) as H2 by reflexivity.
  split; [split; assumption|]. split.
  - exact (proj1 (C5_status_result id off None) H1).
  - exact (proj1 (proj2 (C5_status_result id on None)) H2).
Defined.

Lemma C6_witness :
  let off := fresh_world (mock_db false 3 10) [] [] in
  let on := fresh_world (mock_db true 3 10) [] [] in
  (is_fts_enabled (w_db off) = false ∧ is_fts_enabled (w_db on) = true) ∧
  snd (implementation id "disable" None off) = emit [EDb c_is_fts_enabled] off ∧
  ∃ ip, w_cache (snd (implementation id "disable" None on)) = Some ip ∧
        tr_state ip = mk_ip (-1) (-1) [] ∧
        w_db (snd (implementation id "disable" None on)) = enable_fts false (w_db on).
Proof.
  intros off on.
  assert (is_fts_enabled (w_db off) = false) as H1 by reflexivity.
  assert (is_fts_enabled (w_db on) = true) as H2 by reflexivity.
  split; [split; assumption|]. split.
  - exact (proj2 (proj2 (C6_disable id off None)) H1).
  - destruct (proj1 (proj2 (C6_disable id on None)) H2) as (ip & Hc & Hst & _ & Hdb).
    exists ip. split; [exact Hc|]. split; [exact Hst | exact Hdb].
Defined.

Lemma C8_witness :
  let w := fresh_world (mock_db true 3 10) [] [] in
  ("optimize" ∉ known_actions) ∧
  main id (mk_opts true EmptyString) ["optimize"; "12"] (local_ctx id) w
    = (Raise (mk_exn SystemExit (Some (PStr "optimize is not a known action")) false),
       emit [EOut OutHelp] w).
Proof.
  intros w.
  assert ("optimize" ∉ known_actions) as H1 by (unfold known_actions; not_in_list).
  split; [exact H1|].
  exact (proj1 (C8_unknown_action_exit id (mk_opts true EmptyString) "optimize" ["12"]
                  (local_ctx id) w H1)).
Defined.

Lemma C9_witness :
  let w := fresh_world (mock_db true 3 10) [] [] in
  ("optimize" ∉ known_actions) ∧
  implementation id "optimize" None w = (Ret None, w).
Proof.
  intros w.
  assert ("optimize" ∉ known_actions) as H1 by (unfold known_actions; not_in_list).
  split; [exact H1|].
  exact (C9_unknown_action_is_silent id w "optimize" None H1).
Defined.

Lemma C10_witness :
  (py_int "12" = Some 12%Z ∧ Forall (λ f, isascii f = true) ["epub"; "pdf:x"] ∧
   Forall (λ f, occurs "," f = false) ["epub"; "pdf:x"]) ∧
  to_spec "12" = Ret [PInt 12] ∧
  to_spec "12:epub,pdf:x" = Ret [PInt 12; PStr "EPUB"; PStr "PDF:X"].
Proof.
  assert (py_int "12" = Some 12%Z) as H1 by reflexivity.
  assert (Forall (λ f, isascii f = true) ["epub"; "pdf:x"]) as H2
    by (repeat constructor).
  assert (Forall (λ f, occurs "," f = false) ["epub"; "pdf:x"]) as H3
    by (repeat constructor).
  destruct (C10_to_spec "12" 12 ["epub"; "pdf:x"] H1 H2 H3) as [Hone Hmany].
  split; [repeat split; assumption|]. split; [exact Hone|].
  apply Hmany. discriminate.
Defined.

(** ** The further properties at concrete inputs *)

Lemma X1_witness :
  let w := fresh_world (mock_db false 3 10) [] [] in
  let st := mk_status true 3 10 in
  (fst (implementation id "enable" None w) = Ret (Some st) ∧ enabled st = true) ∧
  (left st, total st) = fts_indexing_progress (w_db (snd (implementation id "enable" None w))).
Proof.
  intros w st.
  assert (fst (implementation id "enable" None w) = Ret (Some st)) as H1 by reflexivity.
  assert (enabled st = true) as H2 by reflexivity.
  split; [split; assumption|].
  exact (X1_reported_progress_is_final id w "enable" None st H1 H2).
Defined.

Lemma X2_witness :
  let w := fresh_world (mock_db true 3 10) [] [] in
  let d : gmap string (list tuple) := {[ "items" := [[PInt 1; PStr "EPUB"]; [PInt 2]] ]} in
  (is_fts_enabled (w_db w) = true ∧
   d !! "items" = Some [[PInt 1; PStr "EPUB"]; [PInt 2]]) ∧
  db_calls (w_trace (snd (implementation id "reindex" (Some d) w)))
    = [c_is_fts_enabled; c_reindex_fts_book [PInt 1; PStr "EPUB"];
       c_reindex_fts_book [PInt 2]; c_fts_indexing_progress].
Proof.
  intros w d.
  assert (is_fts_enabled (w_db w) = true) as H1 by reflexivity.
  assert (d !! "items" = Some [[PInt 1; PStr "EPUB"]; [PInt 2]]) as H2
    by apply lookup_singleton_eq.
  split; [split; assumption|].
  exact (proj2 (proj2 (X2_reindex_calls_each_item id w d _ _ H1 H2))).
Defined.

Lemma X3_witness :
  let w := fresh_world (mock_db true 3 10) [] [] in
  is_fts_enabled (w_db w) = true ∧
  db_calls (w_trace (snd (implementation id "reindex" (Some ∅) w)))
    = [c_is_fts_enabled; c_reindex_fts; c_fts_indexing_progress] ∧
  ∃ e, implementation id "reindex" None w = (Raise e, emit [EDb c_is_fts_enabled] w) ∧
       exn_class e = AttributeError.
Proof.
  intros w.
  assert (is_fts_enabled (w_db w) = true) as H1 by reflexivity.
  destruct (X3_reindex_whole_library id w H1) as [Hall (e & He & Hcls & _)].
  split; [exact H1|]. split.
  - rewrite (Hall ∅ (or_introl (lookup_empty _))). reflexivity.
  - exists e. split; assumption.
Defined.

Lemma X5_witness :
  isascii "12:epub,pdf" = true ∧
  ∃ fs, to_spec "12:epub,pdf" = Ret (PInt 12 :: map PStr fs) ∧
        Forall (λ f, upper f = f ∧ occurs "," f = false) fs ∧
        (fs = [] ↔ occurs ":" "12:epub,pdf" = false).
Proof.
  assert (isascii "12:epub,pdf" = true) as H1 by reflexivity.
  split; [exact H1|].
  exact (X5_to_spec_shape "12:epub,pdf" H1).
Defined.

Lemma X6_witness :
  let w := fresh_world (mock_db true 3 10) [] [] in
  (Forall (λ g, isascii g = true) (["3:epub"] ++ ["x7"]) ∧
   Forall (λ g, is_Some (py_int (before_colon g))) ["3:epub"] ∧
   py_int (before_colon "x7") = None) ∧
  main id (mk_opts false EmptyString) ["reindex"; "3:epub"; "x7"; "9"] (local_ctx id) w
    = (Raise (mk_exn ValueError
                (Some (PStr "invalid literal for int() with base 10: 'x7'")) false), w).
Proof.
  intros w.
  assert (Forall (λ g, isascii g = true) (["3:epub"] ++ ["x7"])) as H0
    by (repeat constructor).
  assert (Forall (λ g, is_Some (py_int (before_colon g))) ["3:epub"]) as H1
    by (repeat constructor; eexists; reflexivity).
  assert (py_int (before_colon "x7") = None) as H2 by reflexivity.
  split; [repeat split; assumption|].
  exact (proj1 (X6_reindex_malformed_item id (mk_opts false EmptyString) (local_ctx id) w
                  ["3:epub"] "x7" ["9"] H0 H1 H2)).
Defined.

Lemma X7_witness :
  let w := fresh_world (mock_db true 3 10) [] [] in
  let opts := mk_opts false EmptyString in
  let specs := [[PInt 3; PStr "EPUB"]; [PInt 7]] in
  (is_fts_enabled (w_db w) = true ∧ wait_for_completion opts = false ∧
   Forall (λ x, isascii x = true) ["3:epub"; "7"] ∧
   Forall2 (λ x t, to_spec x = Ret t) ["3:epub"; "7"] specs) ∧
  fst (main id opts ["reindex"; "3:epub"; "7"] (local_ctx id) w) = Ret 0%Z ∧
  m_requests (w_db (snd (main id opts ["reindex"; "3:epub"; "7"] (local_ctx id) w)))
    = [Some [PInt 3; PStr "EPUB"]; Some [PInt 7]].
Proof.
  intros w opts specs.
  assert (is_fts_enabled (w_db w) = true) as H1 by reflexivity.
  assert (wait_for_completion opts = false) as H2 by reflexivity.
  assert (Forall (λ x, isascii x = true) ["3:epub"; "7"]) as H0
    by (repeat constructor).
  assert (Forall2 (λ x t, to_spec x = Ret t) ["3:epub"; "7"] specs) as H3
    by (repeat constructor).
  destruct (X7_reindex_books_end_to_end id opts w "3:epub" ["7"] specs H1 H2 H0 H3)
    as (Hret & Hdb & _).
  split; [repeat split; assumption|]. split; [exact Hret|].
  rewrite Hdb. reflexivity.
Defined.

Lemma X8_witness :
  let opts := mk_opts false EmptyString in
  let yes := fresh_world (mock_db true 3 10)
               [InputLine (quotes 2 +:+ "reindex" +:+ quotes 1)] [] in
  let no := fresh_world (mock_db true 3 10) [InputLine "yes"] [] in
  (w_stdin yes = [InputLine (quotes 2 +:+ "reindex" +:+ quotes 1)] ∧
   w_stdin no = [InputLine "yes"] ∧ strip dquote "yes" ≠ "reindex") ∧
  m_requests (w_db (snd (main id opts ["reindex"] (local_ctx id) yes))) = [None] ∧
  fst (main id opts ["reindex"] (local_ctx id) no) = Ret 0%Z ∧
  m_requests (w_db (snd (main id opts ["reindex"] (local_ctx id) no))) = [].
Proof.
  intros opts yes no.
  assert (w_stdin yes = [InputLine (quotes 2 +:+ "reindex" +:+ quotes 1)]) as H1
    by reflexivity.
  assert (w_stdin no = [InputLine "yes"]) as H2 by reflexivity.
  assert (strip dquote "yes" ≠ "reindex") as H3 by discriminate.
  destruct (X8_reindex_confirmation id opts (local_ctx id) yes _ _ H1) as [Hyes _].
  destruct (X8_reindex_confirmation id opts (local_ctx id) no _ _ H2) as [_ Hno].
  split; [repeat split; assumption|]. split; [|split].
  - rewrite (Hyes 2%nat 1%nat eq_refl). reflexivity.
  - rewrite (Hno H3). reflexivity.
  - rewrite (Hno H3). reflexivity.
Defined.

Lemma X9_witness :
  let opts := mk_opts true "fast" in
  let w := fresh_world (mock_db true 3 10) [InputLine "disable"] [delivery 0 10] in
  w_stdin w = [InputLine "disable"] ∧
  fst (main id opts ["disable"] (local_ctx id) w) = Ret 0%Z ∧
  db_calls (w_trace (snd (main id opts ["disable"] (local_ctx id) w)))
    = [c_is_fts_enabled; c_enable_fts false].
Proof.
  intros opts w.
  assert (w_stdin w = [InputLine "disable"]) as H1 by reflexivity.
  destruct (X9_disable_confirmation id opts w [] "disable" [] H1) as (Hret & _ & _ & Hcalls).
  split; [exact H1|]. split; [exact Hret | exact Hcalls].
Defined.


Lemma X11_witness :
  let opts := mk_opts true EmptyString in
  let w := fresh_world (mock_db false (-1) (-1)) [] [] in
  let st := mk_status false (-1) (-1) in
  run (local_ctx id) "fts_index" "status" ∅ w = (Ret (Some st), emit [EDb c_is_fts_enabled] w) ∧
  main id opts ["status"] (local_ctx id) w
    = (Raise (mk_exn SystemExit (Some (PInt 2)) false),
       emit [EOut (OutLine "FTS Indexing is disabled")] (emit [EDb c_is_fts_enabled] w)).
Proof.
  intros opts w st.
  assert (run (local_ctx id) "fts_index" "status" ∅ w
          = (Ret (Some st), emit [EDb c_is_fts_enabled] w)) as H1 by reflexivity.
  split; [exact H1|].
  exact (proj1 (X11_status_exit_code id opts (local_ctx id) w [] st _ H1)).
Defined.

Lemma X12_witness :
  let opts := mk_opts true EmptyString in
  let remote := mk_dbctx true (λ _ which data, implementation id which (Some data)) in
  let w := fresh_world (mock_db true 3 10) [] [] in
  let w1 := emit [EDb c_fts_indexing_progress] (emit [EDb c_is_fts_enabled] w) in
  (is_remote remote = true ∧ wait_for_completion opts = true ∧
   run remote "fts_index" "enable" ∅ w = (Ret (Some (mk_status true 3 10)), w1)) ∧
  ∃ e w', main id opts ["enable"] remote w = (Raise e, w') ∧
          exn_class e = NotImplementedError.
Proof.
  intros opts remote w w1.
  assert (is_remote remote = true) as H1 by reflexivity.
  assert (wait_for_completion opts = true) as H2 by reflexivity.
  assert (run remote "fts_index" "enable" ∅ w = (Ret (Some (mk_status true 3 10)), w1)) as H3
    by reflexivity.
  destruct (X12_remote_wait_not_implemented id opts remote w [] _ _ H1 H2 H3)
    as (e & Hmain & Hcls).
  split; [repeat split; assumption|].
  exists e. eexists. split; [exact Hmain | exact Hcls].
Defined.

Lemma X13_witness :
  let w := fresh_world (mock_db true 3 10) []
             ([WaiterStep; WaiterStep] ++ Interrupt :: [delivery 0 10]) in
  let s1 := exec id EmptyString [WaiterStep; WaiterStep] (wait_init (with_sched [] w)) in
  (wt_pc s1 = WStart ∨ wt_pc s1 = WRegistered ∨ wt_pc s1 = WLoop) ∧
  fst (local_wait_for_completion id EmptyString w)
    = Raise (mk_exn KeyboardInterrupt None false) ∧
  w_excepthook_silenced
    (snd (silencing_interrupt (local_wait_for_completion id EmptyString) w)) = true.
Proof.
  intros w s1.
  assert (wt_pc s1 = WStart ∨ wt_pc s1 = WRegistered ∨ wt_pc s1 = WLoop) as H1
    by (right; right; reflexivity).
  destruct (X13_interrupt_ends_wait id w EmptyString [WaiterStep; WaiterStep]
              [delivery 0 10] H1 eq_refl) as (_ & Hcall & _ & Hhook).
  split; [exact H1|]. split; [exact Hcall | exact Hhook].
Defined.

Lemma X14_witness :
  let sched := [WaiterStep; delivery 2 10; WaiterStep; delivery 1 10] in
  let w := fresh_world (mock_db true 3 10) [] sched in
  ((1 ≤ starting_left EmptyString w)%Z ∧ (Interrupt ∉ sched) ∧
   Forall (λ e, (1 ≤ fst e)%Z) (delivered sched)) ∧
  wt_pc (exec id EmptyString sched (wait_init w)) ≠ WReturned ∧
  fst (local_wait_for_completion id EmptyString w) = Diverge.
Proof.
  intros sched w.
  assert ((1 ≤ starting_left EmptyString w)%Z) as H1 by (vm_compute; discriminate).
  assert (Interrupt ∉ sched) as H2 by not_in_list.
  assert (Forall (λ e, (1 ≤ fst e)%Z) (delivered sched)) as H3
    by (repeat constructor; vm_compute; discriminate).
  destruct (X14_no_return_without_terminal_event id w EmptyString sched H1 H2 H3)
    as [Hpc Hcall].
  split; [repeat split; assumption|]. split; [exact Hpc | exact (Hcall eq_refl)].
Defined.

Lemma X15_witness :
  let w := fresh_world (mock_db true 50 100) [] [] in
  let sched := [WaiterStep; delivery 50 100; WaiterStep; delivery 20 100; delivery 0 100;
                WaiterStep; WaiterStep; WaiterStep] in
  let s := exec id EmptyString sched (wait_init w) in
  wt_pc s = WReturned ∧
  progress_shown (w_trace (wt_world s)) = [(50, 100); (50, 100); (80, 100)]%Z.
Proof.
  intros w sched s.
  assert (wt_pc s = WReturned) as H1 by reflexivity.
  split; [exact H1|].
  exact (X15_progress_lines id w EmptyString sched H1).
Defined.

Lemma X18_witness :
  let opts := mk_opts true EmptyString in
  let sched := [delivery 2 10; delivery 0 10] in
  let w := fresh_world (mock_db true 3 10) [] (WaiterStep :: sched) in
  (is_fts_enabled (w_db w) = true ∧ wait_for_completion opts = true ∧
   (1 ≤ starting_left (indexing_speed opts) w)%Z ∧
   Forall (λ e, (1 ≤ fst e)%Z) [(2, 10)] ∧ (fst (0, 10) < 1)%Z ∧
   (Interrupt ∉ sched) ∧ delivered sched = [(2, 10)] ++ [(0, 10)] ∧
   w_sched w = WaiterStep :: sched) ∧
  fst (main id opts ["status"] (local_ctx id) w) = Ret 0%Z.
Proof.
  intros opts sched w.
  assert (is_fts_enabled (w_db w) = true) as H1 by reflexivity.
  assert (wait_for_completion opts = true) as H2 by reflexivity.
  assert ((1 ≤ starting_left (indexing_speed opts) w)%Z) as H3 by (vm_compute; discriminate).
  assert (Forall (λ e, (1 ≤ fst e)%Z) [(2, 10)]) as H4
    by (repeat constructor; vm_compute; discriminate).
  assert ((fst (0, 10) < 1)%Z) as H5 by reflexivity.
  assert (Interrupt ∉ sched) as H6 by not_in_list.
  assert (delivered sched = [(2, 10)] ++ [(0, 10)]) as H7 by reflexivity.
  assert (w_sched w = WaiterStep :: sched) as H8 by reflexivity.
  split; [repeat split; assumption|].
  exact (proj1 (X18_status_waits_then_returns id opts w [] [(2, 10)] (0, 10) sched
                  H1 H2 H3 H4 H5 H6 H7 H8)).
Defined.
